(** * The FFmpeg audio filter builder of the renderer

    A shallow embedding of [stringifyTrim], [trimAndSetTempo] and
    [stringifyFfmpegFilter] (packages/renderer), together with the part of the
    JavaScript runtime these functions rest on: IEEE-754 binary64 numbers (the
    kernel's primitive floats), [Number::toString], [Number.prototype.toFixed],
    [Math.round], [Math.min], [new Array(n)], truthiness and string search.

    The file has four parts: the runtime model ([JS]), the embedding of the
    three functions (Section [FilterGraphBuilder]; again in [Throwing], over
    collaborators that may throw) and of the wrapper [selectComposition],
    the vocabulary of the properties, and the properties with their
    proofs. *)

From Stdlib Require Import ZArith QArith Qround Qpower Floats.
From Stdlib Require Import String Ascii List Bool Lia DecimalString.
Import ListNotations.

Set Warnings "-inexact-float".

Local Open Scope string_scope.

(* ================================================================= *)
(** ** Part 1: the JavaScript runtime *)

Module JS.

(** *** Completions: a call returns a value or throws *)

Inductive exn : Type :=
| Error (message : string)
| RangeError (message : string).

Inductive completion (A : Type) : Type :=
| Return (a : A)
| Throw (e : exn).

Arguments Return {A} a.
Arguments Throw {A} e.

Definition bind {A B : Type} (c : completion A) (k : A -> completion B)
  : completion B :=
  match c with
  | Return a => k a
  | Throw e => Throw e
  end.

(** The value a call returned, if it did not throw. *)
Definition returned {A : Type} (c : completion A) : option A :=
  match c with
  | Return a => Some a
  | Throw _ => None
  end.

(** *** Numbers *)

(** A JavaScript [number] is a binary64 float.  [a >= b] and [a > b] are the
    IEEE comparisons with the operands swapped (both false on NaN). *)
Definition geb (a b : float) : bool := (b <=? a)%float.
Definition gtb (a b : float) : bool := (b <? a)%float.

(** [ToBoolean] on a number: [0], [-0] and [NaN] are falsy. *)
Definition truthy_number (x : float) : bool :=
  negb (is_zero x || is_nan x).

(** [ToBoolean] on a string: only the empty string is falsy. *)
Definition truthy_string (s : string) : bool :=
  match s with
  | EmptyString => false
  | String _ _ => true
  end.

(** [Math.min(a, b)]: NaN if either is NaN; [-0] is smaller than [+0]. *)
Definition Math_min (a b : float) : float :=
  if is_nan a || is_nan b then nan
  else if (a <? b)%float then a
  else if (b <? a)%float then b
  else if is_zero a && get_sign b then b
  else a.

(** The exact rational value [m * 2^e] of a positive finite float. *)
Definition Q2pow (e : Z) : Q := (2 ^ e)%Q.
Definition Q10pow (n : Z) : Q := (10 ^ n)%Q.
Definition Qltb (a b : Q) : bool := negb (Qle_bool b a).

Definition magnitude (m : positive) (e : Z) : Q :=
  (inject_Z (Zpos m) * Q2pow e)%Q.

(** The float that an integer [z] with [|z| < 2^53] denotes exactly. *)
Definition float_of_Z (z : Z) : float :=
  SF2Prim (binary_normalize prec emax z 0 false).

(** [Some z] when [x] is a finite number whose value is the integer [z]. *)
Definition integer_value (x : float) : option Z :=
  match Prim2SF x with
  | S754_zero _ => Some 0%Z
  | S754_finite s m e =>
      let sign := if s then (-1)%Z else 1%Z in
      if (0 <=? e)%Z then Some (sign * (Zpos m * 2 ^ e))%Z
      else if (Zpos m mod 2 ^ (- e) =? 0)%Z
           then Some (sign * (Zpos m / 2 ^ (- e)))%Z
           else None
  | _ => None
  end.

(** [Math.round(x)]: the integral number closest to [x], the one closer to
    [+Infinity] on a tie; [-0] for [-0.5 <= x < 0]. *)
Definition Math_round (x : float) : float :=
  match Prim2SF x with
  | S754_finite s m e =>
      if (0 <=? e)%Z then x
      else
        let v := if s then Qopp (magnitude m e) else magnitude m e in
        let r := Qfloor (v + (1 # 2))%Q in
        if (r =? 0)%Z then (if s then PrimFloat.neg_zero else PrimFloat.zero)
        else float_of_Z r
  | _ => x
  end.

(** *** Strings *)

(** [hay.includes(needle)]. *)
Fixpoint includes (needle hay : string) : bool :=
  String.prefix needle hay
  || match hay with
     | EmptyString => false
     | String _ rest => includes needle rest
     end.

(** [parts.join(sep)]. *)
Definition join (sep : string) (parts : list string) : string :=
  String.concat sep parts.

(** The decimal digits of a non-negative integer. *)
Definition digits (z : Z) : string :=
  NilZero.string_of_uint (N.to_uint (Z.to_N z)).

Fixpoint zeros (n : nat) : string :=
  match n with
  | O => ""
  | S n' => String "0" (zeros n')
  end.

Definition take (n : nat) (s : string) : string := String.substring 0 n s.
Definition drop (n : nat) (s : string) : string :=
  String.substring n (String.length s - n) s.

(** *** Number::toString (radix 10), ECMA-262 6.1.6.1.20 *)

(** Step 5 picks integers [n], [k], [s] with [10^(k-1) <= s < 10^k] such
    that [s * 10^(n-k)] rounds to [x] and [k] is least (the closest such
    [s], the even one on a tie). *)
Record decimal : Type := { dec_s : Z; dec_k : Z; dec_n : Z }.

(** The decimals that round to [x = m * 2^e] under round-to-nearest-even lie
    between the midpoints to its neighbours, the midpoints included when [m]
    is even.  Below a power of two the lower neighbour is half as far. *)
Definition round_hi (m : positive) (e : Z) : Q :=
  (inject_Z (2 * Zpos m + 1) * Q2pow (e - 1))%Q.

Definition round_lo (m : positive) (e : Z) : Q :=
  if (Zpos m =? 2 ^ 52)%Z && (-1074 <? e)%Z
  then (inject_Z (4 * Zpos m - 1) * Q2pow (e - 2))%Q
  else (inject_Z (2 * Zpos m - 1) * Q2pow (e - 1))%Q.

Definition rounds_to (m : positive) (e : Z) (v : Q) : bool :=
  if Z.even (Zpos m)
  then Qle_bool (round_lo m e) v && Qle_bool v (round_hi m e)
  else Qltb (round_lo m e) v && Qltb v (round_hi m e).

(** The [n0] with [10^(n0-1) <= x < 10^n0]: searched upwards from [1] when
    [1 <= x], downwards from [0] otherwise.  A binary64 lies between
    [10^(-324)] and [10^309], which bounds both searches. *)
Fixpoint exponent_up (fuel : nat) (j : Z) (x : Q) : Z :=
  match fuel with
  | O => j
  | S fuel' =>
      if Qltb x (Q10pow j) then j else exponent_up fuel' (j + 1) x
  end.

Fixpoint exponent_down (fuel : nat) (j : Z) (x : Q) : Z :=
  match fuel with
  | O => j
  | S fuel' =>
      if Qle_bool (Q10pow (j - 1)) x then j
      else exponent_down fuel' (j - 1) x
  end.

Definition decimal_exponent (x : Q) : Z :=
  if Qle_bool 1 x then exponent_up 308 1 x else exponent_down 324 0 x.

(** The [k]-digit candidates next to [x] at the scale [10^(n0-k)]: the one
    that rounds to [x], the closer (or even) one when both do. *)
Definition candidate (m : positive) (e n0 k : Z) : option Z :=
  let x := magnitude m e in
  let scale := Q10pow (n0 - k) in
  let s_lo := Qfloor (x / scale)%Q in
  let s_hi := (s_lo + 1)%Z in
  let v_lo := (inject_Z s_lo * scale)%Q in
  let v_hi := (inject_Z s_hi * scale)%Q in
  match rounds_to m e v_lo, rounds_to m e v_hi with
  | true, true =>
      match Qcompare (x - v_lo) (v_hi - x) with
      | Lt => Some s_lo
      | Gt => Some s_hi
      | Eq => Some (if Z.even s_lo then s_lo else s_hi)
      end
  | true, false => Some s_lo
  | false, true => Some s_hi
  | false, false => None
  end.

(** A candidate that reached [10^k] is the one-digit decimal [1 * 10^n0]. *)
Definition normalise (s k n0 : Z) : decimal :=
  if (s =? 10 ^ k)%Z then {| dec_s := 1; dec_k := 1; dec_n := n0 + 1 |}
  else {| dec_s := s; dec_k := k; dec_n := n0 |}.

(** Seventeen digits always round-trip a binary64, so the search ends by
    [k = 17]; past that the floor at the current scale is returned. *)
Fixpoint shortest_from (fuel : nat) (m : positive) (e n0 k : Z) : decimal :=
  match fuel with
  | O =>
      {| dec_s := Qfloor (magnitude m e / Q10pow (n0 - k))%Q;
         dec_k := k; dec_n := n0 |}
  | S fuel' =>
      match candidate m e n0 k with
      | Some s => normalise s k n0
      | None => shortest_from fuel' m e n0 (k + 1)
      end
  end.

Definition shortest_decimal (m : positive) (e : Z) : decimal :=
  shortest_from 17 m e (decimal_exponent (magnitude m e)) 1.

(** Steps 6 to 10: plain notation for [-6 < n <= 21], exponent notation
    otherwise. *)
Definition format_decimal (d : decimal) : string :=
  let ds := digits (dec_s d) in
  let k := dec_k d in
  let n := dec_n d in
  if (k <=? n)%Z && (n <=? 21)%Z then
    ds ++ zeros (Z.to_nat (n - k))
  else if (0 <? n)%Z && (n <=? 21)%Z then
    take (Z.to_nat n) ds ++ "." ++ drop (Z.to_nat n) ds
  else if (-6 <? n)%Z && (n <=? 0)%Z then
    "0." ++ zeros (Z.to_nat (- n)) ++ ds
  else
    let ex := (n - 1)%Z in
    let sign := if (ex <? 0)%Z then "-" else "+" in
    if (k =? 1)%Z then
      ds ++ "e" ++ sign ++ digits (Z.abs ex)
    else
      take 1 ds ++ "." ++ drop 1 ds ++ "e" ++ sign ++ digits (Z.abs ex).

Definition Number_toString (x : float) : string :=
  match Prim2SF x with
  | S754_nan => "NaN"
  | S754_zero _ => "0"
  | S754_infinity s => if s then "-Infinity" else "Infinity"
  | S754_finite s m e =>
      (if s then "-" else "") ++ format_decimal (shortest_decimal m e)
  end.

(** *** Number.prototype.toFixed(0), ECMA-262 21.1.3.3 *)

(** Non-finite numbers and magnitudes from [10^21] print as [toString]
    does; otherwise the nearest integer, the larger one on a tie, after the
    sign. *)
Definition toFixed0 (x : float) : string :=
  match Prim2SF x with
  | S754_zero _ => "0"
  | S754_finite s m e =>
      if Qle_bool (Q10pow 21) (magnitude m e) then Number_toString x
      else (if s then "-" else "")
           ++ digits (Qfloor (magnitude m e + (1 # 2))%Q)
  | _ => Number_toString x
  end.

(** *** new Array(len).fill(v) *)

(** [new Array(len)] throws a [RangeError] unless [len] is an integer in
    [0, 2^32 - 1]; [fill] then stores [v] in every slot. *)
Definition new_Array_fill {A : Type} (len : float) (v : A)
  : completion (list A) :=
  match integer_value len with
  | Some z =>
      if (0 <=? z)%Z && (z <? 2 ^ 32)%Z
      then Return (List.repeat v (Z.to_nat z))
      else Throw (RangeError "Invalid array length")
  | None => Throw (RangeError "Invalid array length")
  end.

End JS.

(* ================================================================= *)
(** ** Part 2: the filter builder *)

Import JS.

Notation "'let*' x ':=' c 'in' k" := (bind c (fun x => k))
  (at level 10, x name, c at level 100, k at level 200).

(** What [ffmpegVolumeExpression] returns: the multiplier expression and
    FFmpeg's evaluation mode for it. *)
Module Volume.
Record t : Type := { value : string; eval : string }.
End Volume.

(** What [trimAndSetTempo] returns. *)
Module TrimAndTempo.
Record t : Type := {
  filter : list (option string);
  actualTrimLeft : float;
  audibleDuration : float
}.
End TrimAndTempo.

(** [ProcessedTrack & {filter: string}]. *)
Record FilterWithoutPaddingApplied : Type := {
  filter : string;
  pad_end : option string;
  pad_start : option string
}.

(** The argument object of [stringifyFfmpegFilter]. *)
Record Request (AssetVolume : Type) : Type := {
  trimLeft : float;
  trimRight : float;
  channels : float;
  startInVideo : float;
  volume : AssetVolume;
  fps : float;
  playbackRate : float;
  assetDuration : option float;
  allowAmplificationDuringRender : bool;
  toneFrequency : option float;
  chunkLengthInSeconds : float;
  forSeamlessAacConcatenation : bool
}.

Arguments trimLeft {AssetVolume} _.
Arguments trimRight {AssetVolume} _.
Arguments channels {AssetVolume} _.
Arguments startInVideo {AssetVolume} _.
Arguments volume {AssetVolume} _.
Arguments fps {AssetVolume} _.
Arguments playbackRate {AssetVolume} _.
Arguments assetDuration {AssetVolume} _.
Arguments allowAmplificationDuringRender {AssetVolume} _.
Arguments toneFrequency {AssetVolume} _.
Arguments chunkLengthInSeconds {AssetVolume} _.
Arguments forSeamlessAacConcatenation {AssetVolume} _.

(** Modelled from the spec: [truthy] of ./truthy, the predicate the clause
    array is filtered with ("null/empty stages are skipped, not emitted as
    empty clauses"): [Boolean(value)] on [string | null]. *)
Definition truthy (v : option string) : bool :=
  match v with
  | None => false
  | Some s => truthy_string s
  end.

(** [array.join(sep)] on [(string | null)[]]: a [null] element prints as the
    empty string. *)
Definition join_nullable (sep : string) (parts : list (option string))
  : string :=
  join sep (List.map (fun v => match v with Some s => s | None => "" end) parts).

Definition stringifyTrim (trim : float) : string :=
  let value := (trim * 1000000)%float in
  let asString := Number_toString value ++ "us" in
  (* Handle very small values such as "6e-7us", those are essentially
     rounding errors to 0 *)
  if includes "e-" asString then "0us" else asString.

(** The collaborators whose sources are not part of this development:
    the tempo clause generator (./assets/calculate-atempo), the volume
    expression generator (./assets/ffmpeg-volume-expression, applied to
    [volume], [fps], [trimLeft] and [allowAmplificationDuringRender]) over
    the volume descriptor type (./assets/types), and the fixed sample rate
    (./sample-rate). *)
Class Collaborators (AssetVolume : Type) : Type := {
  calculateATempo : float -> option string;
  ffmpegVolumeExpression : AssetVolume -> float -> float -> bool -> Volume.t;
  DEFAULT_SAMPLE_RATE : float
}.

Section FilterGraphBuilder.

Context {AssetVolume : Type} {collaborators : Collaborators AssetVolume}.

(** The right trim bound of [trimAndSetTempo]: clamped to the asset's end
    when [assetDuration] is truthy. *)
Definition trimRightOrAssetDuration (trimRight : float)
    (assetDuration : option float) : float :=
  match assetDuration with
  | Some d => if truthy_number d then Math_min trimRight d else trimRight
  | None => trimRight
  end.

Definition trimAndSetTempo (playbackRate trimLeft trimRight : float)
    (forSeamlessAacConcatenation : bool) (assetDuration : option float)
  : completion TrimAndTempo.t :=
  let trimRightOrAssetDuration :=
    trimRightOrAssetDuration trimRight assetDuration in
  (* If we need seamless AAC stitching, we need to apply the tempo filter
     first *)
  if forSeamlessAacConcatenation then
    let actualTrimLeft := (trimLeft / playbackRate)%float in
    let actualTrimRight := (trimRightOrAssetDuration / playbackRate)%float in
    Return {|
      TrimAndTempo.filter := [
        calculateATempo playbackRate;
        Some ("atrim=" ++ stringifyTrim actualTrimLeft ++ ":"
                ++ stringifyTrim actualTrimRight)
      ];
      TrimAndTempo.actualTrimLeft := actualTrimLeft;
      TrimAndTempo.audibleDuration := (actualTrimRight - actualTrimLeft)%float
    |}
  (* Otherwise, we first trim and then apply playback rate *)
  else if negb forSeamlessAacConcatenation then
    Return {|
      TrimAndTempo.filter := [
        Some ("atrim=" ++ stringifyTrim trimLeft ++ ":"
                ++ stringifyTrim trimRightOrAssetDuration);
        calculateATempo playbackRate
      ];
      TrimAndTempo.actualTrimLeft := trimLeft;
      TrimAndTempo.audibleDuration :=
        ((trimRightOrAssetDuration - trimLeft) / playbackRate)%float
    |}
  else Throw (Error "This should never happen").

(** The clause array of [stringifyFfmpegFilter] before [.filter(truthy)]:
    format conversion, the trim/tempo clauses, the volume clause unless the
    multiplier is ["1"], the tone clause when [toneFrequency] is truthy and
    not [1]. *)
Definition filterClauses (trimAndTempoFilter : list (option string))
    (volumeFilter : Volume.t) (toneFrequency : option float)
  : list (option string) :=
  [Some ("aformat=sample_fmts=s32:sample_rates="
           ++ Number_toString DEFAULT_SAMPLE_RATE)]
  ++ trimAndTempoFilter
  ++ [ if String.eqb (Volume.value volumeFilter) "1" then None
       else Some ("volume=" ++ Volume.value volumeFilter
                    ++ ":eval=" ++ Volume.eval volumeFilter);
       match toneFrequency with
       | Some t =>
           if truthy_number t && negb (t =? 1)%float
           then Some ("asetrate=" ++ Number_toString DEFAULT_SAMPLE_RATE
                        ++ "*" ++ Number_toString t
                        ++ ",aresample=" ++ Number_toString DEFAULT_SAMPLE_RATE
                        ++ ",atempo=1/" ++ Number_toString t)
           else None
       | None => None
       end ].

Definition stringifyFfmpegFilter (r : Request AssetVolume)
  : completion (option FilterWithoutPaddingApplied) :=
  let startInVideoSeconds := (startInVideo r / fps r)%float in
  if match assetDuration r with
     | Some d => truthy_number d && geb (trimLeft r) d
     | None => false
     end
  then Return None
  else if match toneFrequency r with
          | Some t => (t <=? 0)%float || gtb t 2
          | None => false
          end
  then Throw (Error "toneFrequency must be a positive number between 0.01 and 2")
  else
    let* tt := trimAndSetTempo (playbackRate r) (trimLeft r) (trimRight r)
                 (forSeamlessAacConcatenation r) (assetDuration r) in
    let volumeFilter :=
      ffmpegVolumeExpression (volume r) (fps r)
        (TrimAndTempo.actualTrimLeft tt) (allowAmplificationDuringRender r) in
    let padAtEnd :=
      (chunkLengthInSeconds r - TrimAndTempo.audibleDuration tt
       - startInVideoSeconds)%float in
    (* Set as few filters as possible, as combining them can create noise *)
    let filter_ :=
      "[0:a]"
      ++ join_nullable ","
           (List.filter truthy
              (filterClauses (TrimAndTempo.filter tt) volumeFilter
                 (toneFrequency r)))
      ++ "[a0]" in
    let pad_end_ :=
      if gtb padAtEnd 0.0000001
      then Some ("apad=pad_len="
                   ++ Number_toString
                        (Math_round (padAtEnd * DEFAULT_SAMPLE_RATE)%float))
      else None in
    (* For n channels, we delay n + 1 channels. *)
    let* pad_start_ :=
      if (startInVideoSeconds =? 0)%float then Return None
      else
        let* delays :=
          new_Array_fill (channels r + 1)%float
            (toFixed0 (startInVideoSeconds * 1000)%float) in
        Return (Some ("adelay=" ++ join "|" delays)) in
    Return (Some {| filter := filter_;
                    pad_end := pad_end_;
                    pad_start := pad_start_ |}).

End FilterGraphBuilder.

(* ================================================================= *)
(** ** Part 3: the vocabulary of the properties *)

(** The trim window starts at or past the end of the asset: the guard of
    the early [return null]. *)
Definition trimmed_away {AssetVolume : Type} (r : Request AssetVolume) : bool :=
  match assetDuration r with
  | Some d => truthy_number d && geb (trimLeft r) d
  | None => false
  end.

(** A tone frequency outside the interval (0, 2]. *)
Definition outside_tone_range (t : float) : bool :=
  negb ((0 <? t)%float && (t <=? 2)%float).

Definition tone_error : exn :=
  Error "toneFrequency must be a positive number between 0.01 and 2".

(** The validation of [toneFrequency] as the builder writes it. *)
Definition tone_rejected {AssetVolume : Type} (r : Request AssetVolume) : bool :=
  match toneFrequency r with
  | Some t => (t <=? 0)%float || gtb t 2
  | None => false
  end.

(** The request with another [assetDuration]. *)
Definition with_assetDuration {AssetVolume : Type} (r : Request AssetVolume)
    (d : option float) : Request AssetVolume := {|
  trimLeft := trimLeft r;
  trimRight := trimRight r;
  channels := channels r;
  startInVideo := startInVideo r;
  volume := volume r;
  fps := fps r;
  playbackRate := playbackRate r;
  assetDuration := d;
  allowAmplificationDuringRender := allowAmplificationDuringRender r;
  toneFrequency := toneFrequency r;
  chunkLengthInSeconds := chunkLengthInSeconds r;
  forSeamlessAacConcatenation := forSeamlessAacConcatenation r
|}.

(** The number of places of [hay] at which [needle] starts. *)
Fixpoint occurrences (needle hay : string) : nat :=
  (if String.prefix needle hay then 1 else 0)
  + match hay with
    | EmptyString => 0
    | String _ rest => occurrences needle rest
    end.

(** The character [c] does not occur in [s]. *)
Fixpoint lacks (c : ascii) (s : string) : bool :=
  match s with
  | EmptyString => true
  | String c' rest => negb (Ascii.eqb c' c) && lacks c rest
  end.

(** A string that no occurrence of [p] can reach into: it is empty or
    starts with a character foreign to [p]. *)
Definition stops (p b : string) : bool :=
  match b with
  | EmptyString => true
  | String d _ => lacks d p
  end.

(** The occurrences of [volume=] in a clause of the array. *)
Definition clause_occurrences (c : option string) : nat :=
  match c with
  | Some s => occurrences "volume=" s
  | None => 0
  end.

(** [trimLeft] as the volume generator receives it: [actualTrimLeft] of the
    mode. *)
Definition volumeTrimLeft {AssetVolume : Type} (r : Request AssetVolume)
  : float :=
  if forSeamlessAacConcatenation r
  then (trimLeft r / playbackRate r)%float else trimLeft r.

(** Stand-ins for the collaborators, used to run the builder on concrete
    requests: the volume descriptor is the multiplier itself, evaluated
    once; the tempo clause is a single [atempo]; 48 kHz. *)
Module Sample.

#[global] Instance collaborators : Collaborators string := {|
  calculateATempo := fun rate => Some ("atempo=" ++ Number_toString rate);
  ffmpegVolumeExpression := fun volume _ _ _ =>
    {| Volume.value := volume; Volume.eval := "once" |};
  DEFAULT_SAMPLE_RATE := 48000
|}.

(** One second in at 30 fps, two channels, double speed, an eight second
    chunk, half volume. *)
Definition make (trimLeft trimRight : float)
    (assetDuration toneFrequency : option float) : Request string := {|
  trimLeft := trimLeft;
  trimRight := trimRight;
  channels := 2;
  startInVideo := 30;
  volume := "0.5";
  fps := 30;
  playbackRate := 2;
  assetDuration := assetDuration;
  allowAmplificationDuringRender := false;
  toneFrequency := toneFrequency;
  chunkLengthInSeconds := 8;
  forSeamlessAacConcatenation := false
|}.

(** Ten seconds of source of unknown length, pitch doubled. *)
Definition request : Request string := make 0 10 None (Some 2%float).

Definition fragment : FilterWithoutPaddingApplied := {|
  filter := "[0:a]aformat=sample_fmts=s32:sample_rates=48000,atrim=0us:10000000us,atempo=2,volume=0.5:eval=once,asetrate=48000*2,aresample=48000,atempo=1/2[a0]";
  pad_end := Some "apad=pad_len=96000";
  pad_start := Some "adelay=1000|1000|1000"
|}.

End Sample.

(* ================================================================= *)
(** ** Part 3b: the wrapper [selectComposition] and further vocabulary *)

(** [selectComposition] fills in the defaults of its options and awaits
    [internalSelectComposition], of which it returns the metadata.  An
    optional or nullable option is an [option], [None] standing for both
    [undefined] and [null], which [??] does not tell apart; the promise of
    the awaited call is the completion it settles to. *)
Module SelectComposition.

(** [SelectCompositionOptions]. *)
Module Options.
Record t {Props Env Browser Executable Chromium LogHandler : Type} : Type := {
  inputProps : option Props;
  envVariables : option Env;
  puppeteerInstance : option Browser;
  onBrowserLog : option LogHandler;
  browserExecutable : option Executable;
  chromiumOptions : option Chromium;
  port : option float;
  verbose : option bool;
  serveUrl : string;
  id : string;
  logLevel : option string;
  timeoutInMilliseconds : option float;
  offthreadVideoCacheSizeInBytes : option float;
  binariesDirectory : option string
}.
Arguments t : clear implicits.
End Options.

(** [InternalSelectCompositionsConfig]. *)
Module Config.
Record t {Env Browser Executable Chromium LogHandler Server : Type} : Type := {
  id : string;
  serveUrl : string;
  browserExecutable : option Executable;
  chromiumOptions : Chromium;
  envVariables : Env;
  serializedInputPropsWithCustomSchema : string;
  onBrowserLog : option LogHandler;
  port : option float;
  puppeteerInstance : option Browser;
  timeoutInMilliseconds : float;
  logLevel : string;
  indent : bool;
  server : option Server;
  offthreadVideoCacheSizeInBytes : option float;
  binariesDirectory : option string
}.
Arguments t : clear implicits.
End Config.

(** [InternalReturnType]. *)
Record InternalReturnType {VideoConfig : Type} : Type := {
  metadata : VideoConfig;
  propsSize : float
}.
Arguments InternalReturnType : clear implicits.

(** [a ?? b]. *)
Definition coalesce {A : Type} (a : option A) (b : A) : A :=
  match a with
  | Some v => v
  | None => b
  end.

Section Wrapper.

Context {Props Env Browser Executable Chromium LogHandler Server VideoConfig
           : Type}.

(** The empty object literals, [DEFAULT_TIMEOUT] of
    ./browser/TimeoutSettings, the [serializedString] that
    [NoReactInternals.serializeJSONWithDate] returns for [data] (with
    [indent: undefined] and [staticBase: null]), and the awaited
    [internalSelectComposition]. *)
Variable emptyProps : Props.
Variable emptyEnv : Env.
Variable emptyChromiumOptions : Chromium.
Variable DEFAULT_TIMEOUT : float.
Variable serializeJSONWithDate : Props -> string.
Variable internalSelectComposition :
  Config.t Env Browser Executable Chromium LogHandler Server ->
  completion (InternalReturnType VideoConfig).

(** The argument of [internalSelectComposition].  The log level reads
    [logLevel ?? verbose ? 'verbose' : 'info'], in which [??] binds tighter
    than the conditional: the condition is [logLevel ?? verbose]. *)
Definition internalConfig
    (options : Options.t Props Env Browser Executable Chromium LogHandler)
  : Config.t Env Browser Executable Chromium LogHandler Server := {|
  Config.id := Options.id options;
  Config.serveUrl := Options.serveUrl options;
  Config.browserExecutable := Options.browserExecutable options;
  Config.chromiumOptions :=
    coalesce (Options.chromiumOptions options) emptyChromiumOptions;
  Config.envVariables := coalesce (Options.envVariables options) emptyEnv;
  Config.serializedInputPropsWithCustomSchema :=
    serializeJSONWithDate (coalesce (Options.inputProps options) emptyProps);
  Config.onBrowserLog := Options.onBrowserLog options;
  Config.port := Options.port options;
  Config.puppeteerInstance := Options.puppeteerInstance options;
  Config.timeoutInMilliseconds :=
    coalesce (Options.timeoutInMilliseconds options) DEFAULT_TIMEOUT;
  Config.logLevel :=
    if match Options.logLevel options with
       | Some level => truthy_string level
       | None => match Options.verbose options with
                 | Some flag => flag
                 | None => false
                 end
       end
    then "verbose" else "info";
  Config.indent := false;
  Config.server := None;
  Config.offthreadVideoCacheSizeInBytes :=
    Options.offthreadVideoCacheSizeInBytes options;
  Config.binariesDirectory := Options.binariesDirectory options
|}.

Definition selectComposition
    (options : Options.t Props Env Browser Executable Chromium LogHandler)
  : completion VideoConfig :=
  let* data := internalSelectComposition (internalConfig options) in
  Return (metadata data).

End Wrapper.

(** The options with another [logLevel]. *)
Definition with_logLevel {Props Env Browser Executable Chromium LogHandler : Type}
    (options : Options.t Props Env Browser Executable Chromium LogHandler)
    (level : option string)
  : Options.t Props Env Browser Executable Chromium LogHandler := {|
  Options.inputProps := Options.inputProps options;
  Options.envVariables := Options.envVariables options;
  Options.puppeteerInstance := Options.puppeteerInstance options;
  Options.onBrowserLog := Options.onBrowserLog options;
  Options.browserExecutable := Options.browserExecutable options;
  Options.chromiumOptions := Options.chromiumOptions options;
  Options.port := Options.port options;
  Options.verbose := Options.verbose options;
  Options.serveUrl := Options.serveUrl options;
  Options.id := Options.id options;
  Options.logLevel := level;
  Options.timeoutInMilliseconds := Options.timeoutInMilliseconds options;
  Options.offthreadVideoCacheSizeInBytes :=
    Options.offthreadVideoCacheSizeInBytes options;
  Options.binariesDirectory := Options.binariesDirectory options
|}.

End SelectComposition.

(** No character of the string is a minus sign. *)
Fixpoint minus_free (s : string) : bool :=
  match s with
  | EmptyString => true
  | String c rest => negb (Ascii.eqb c "-") && minus_free rest
  end.

(** [new Array(len)] accepts [len]. *)
Definition array_length_ok (len : float) : bool :=
  match integer_value len with
  | Some z => (0 <=? z)%Z && (z <? 2 ^ 32)%Z
  | None => false
  end.

(** The request with another [toneFrequency]. *)
Definition with_toneFrequency {AssetVolume : Type} (r : Request AssetVolume)
    (t : option float) : Request AssetVolume := {|
  trimLeft := trimLeft r;
  trimRight := trimRight r;
  channels := channels r;
  startInVideo := startInVideo r;
  volume := volume r;
  fps := fps r;
  playbackRate := playbackRate r;
  assetDuration := assetDuration r;
  allowAmplificationDuringRender := allowAmplificationDuringRender r;
  toneFrequency := t;
  chunkLengthInSeconds := chunkLengthInSeconds r;
  forSeamlessAacConcatenation := forSeamlessAacConcatenation r
|}.

(** The tone clause for a factor [t] at the sample rate [rate]. *)
Definition tone_clause (rate t : float) : string :=
  "asetrate=" ++ Number_toString rate ++ "*" ++ Number_toString t
  ++ ",aresample=" ++ Number_toString rate
  ++ ",atempo=1/" ++ Number_toString t.

(** *** The builder when a collaborator may throw *)

(** [calculateATempo] and [ffmpegVolumeExpression] are calls into other
    modules: each returns or throws, and what it throws passes through
    [trimAndSetTempo] and [stringifyFfmpegFilter], which catch nothing. *)
Module Throwing.

Class Collaborators (AssetVolume : Type) : Type := {
  calculateATempo : float -> completion (option string);
  ffmpegVolumeExpression :
    AssetVolume -> float -> float -> bool -> completion Volume.t;
  DEFAULT_SAMPLE_RATE : float
}.

Section FilterGraphBuilder.

Context {AssetVolume : Type} {collaborators : Collaborators AssetVolume}.

Definition trimAndSetTempo (playbackRate trimLeft trimRight : float)
    (forSeamlessAacConcatenation : bool) (assetDuration : option float)
  : completion TrimAndTempo.t :=
  let trimRightOrAssetDuration :=
    trimRightOrAssetDuration trimRight assetDuration in
  if forSeamlessAacConcatenation then
    let actualTrimLeft := (trimLeft / playbackRate)%float in
    let actualTrimRight := (trimRightOrAssetDuration / playbackRate)%float in
    let* tempo := calculateATempo playbackRate in
    Return {|
      TrimAndTempo.filter := [
        tempo;
        Some ("atrim=" ++ stringifyTrim actualTrimLeft ++ ":"
                ++ stringifyTrim actualTrimRight)
      ];
      TrimAndTempo.actualTrimLeft := actualTrimLeft;
      TrimAndTempo.audibleDuration := (actualTrimRight - actualTrimLeft)%float
    |}
  else if negb forSeamlessAacConcatenation then
    let* tempo := calculateATempo playbackRate in
    Return {|
      TrimAndTempo.filter := [
        Some ("atrim=" ++ stringifyTrim trimLeft ++ ":"
                ++ stringifyTrim trimRightOrAssetDuration);
        tempo
      ];
      TrimAndTempo.actualTrimLeft := trimLeft;
      TrimAndTempo.audibleDuration :=
        ((trimRightOrAssetDuration - trimLeft) / playbackRate)%float
    |}
  else Throw (Error "This should never happen").

Definition filterClauses (trimAndTempoFilter : list (option string))
    (volumeFilter : Volume.t) (toneFrequency : option float)
  : list (option string) :=
  [Some ("aformat=sample_fmts=s32:sample_rates="
           ++ Number_toString DEFAULT_SAMPLE_RATE)]
  ++ trimAndTempoFilter
  ++ [ if String.eqb (Volume.value volumeFilter) "1" then None
       else Some ("volume=" ++ Volume.value volumeFilter
                    ++ ":eval=" ++ Volume.eval volumeFilter);
       match toneFrequency with
       | Some t =>
           if truthy_number t && negb (t =? 1)%float
           then Some ("asetrate=" ++ Number_toString DEFAULT_SAMPLE_RATE
                        ++ "*" ++ Number_toString t
                        ++ ",aresample=" ++ Number_toString DEFAULT_SAMPLE_RATE
                        ++ ",atempo=1/" ++ Number_toString t)
           else None
       | None => None
       end ].

Definition stringifyFfmpegFilter (r : Request AssetVolume)
  : completion (option FilterWithoutPaddingApplied) :=
  let startInVideoSeconds := (startInVideo r / fps r)%float in
  if match assetDuration r with
     | Some d => truthy_number d && geb (trimLeft r) d
     | None => false
     end
  then Return None
  else if match toneFrequency r with
          | Some t => (t <=? 0)%float || gtb t 2
          | None => false
          end
  then Throw (Error "toneFrequency must be a positive number between 0.01 and 2")
  else
    let* tt := trimAndSetTempo (playbackRate r) (trimLeft r) (trimRight r)
                 (forSeamlessAacConcatenation r) (assetDuration r) in
    let* volumeFilter :=
      ffmpegVolumeExpression (volume r) (fps r)
        (TrimAndTempo.actualTrimLeft tt) (allowAmplificationDuringRender r) in
    let padAtEnd :=
      (chunkLengthInSeconds r - TrimAndTempo.audibleDuration tt
       - startInVideoSeconds)%float in
    let filter_ :=
      "[0:a]"
      ++ join_nullable ","
           (List.filter truthy
              (filterClauses (TrimAndTempo.filter tt) volumeFilter
                 (toneFrequency r)))
      ++ "[a0]" in
    let pad_end_ :=
      if gtb padAtEnd 0.0000001
      then Some ("apad=pad_len="
                   ++ Number_toString
                        (Math_round (padAtEnd * DEFAULT_SAMPLE_RATE)%float))
      else None in
    let* pad_start_ :=
      if (startInVideoSeconds =? 0)%float then Return None
      else
        let* delays :=
          new_Array_fill (channels r + 1)%float
            (toFixed0 (startInVideoSeconds * 1000)%float) in
        Return (Some ("adelay=" ++ join "|" delays)) in
    Return (Some {| filter := filter_;
                    pad_end := pad_end_;
                    pad_start := pad_start_ |}).

End FilterGraphBuilder.

End Throwing.

(** Stand-ins for collaborators that may throw: those of [Sample], with a
    tempo generator that overflows the stack on a rate that is not
    positive. *)
Module ThrowingSample.

#[global] Instance collaborators : Throwing.Collaborators string := {|
  Throwing.calculateATempo := fun rate =>
    if (0 <? rate)%float
    then Return (Some ("atempo=" ++ Number_toString rate))
    else Throw (RangeError "Maximum call stack size exceeded");
  Throwing.ffmpegVolumeExpression := fun volume _ _ _ =>
    Return {| Volume.value := volume; Volume.eval := "once" |};
  Throwing.DEFAULT_SAMPLE_RATE := 48000
|}.

(** The sample request at rate zero. *)
Definition zero_rate_request : Request string := {|
  trimLeft := 0;
  trimRight := 10;
  channels := 2;
  startInVideo := 30;
  volume := "0.5";
  fps := 30;
  playbackRate := 0;
  assetDuration := None;
  allowAmplificationDuringRender := false;
  toneFrequency := None;
  chunkLengthInSeconds := 8;
  forSeamlessAacConcatenation := false
|}.

End ThrowingSample.

(** Further concrete requests: no frame rate and no offset, so that the
    start offset is [0 / 0]; and the sample request without a tone factor. *)
Module MoreSamples.

Definition zero_fps_request : Request string := {|
  trimLeft := 0;
  trimRight := 10;
  channels := 2;
  startInVideo := 0;
  volume := "1";
  fps := 0;
  playbackRate := 1;
  assetDuration := None;
  allowAmplificationDuringRender := false;
  toneFrequency := None;
  chunkLengthInSeconds := 10;
  forSeamlessAacConcatenation := false
|}.

Definition zero_fps_fragment : FilterWithoutPaddingApplied := {|
  filter := "[0:a]aformat=sample_fmts=s32:sample_rates=48000,atrim=0us:10000000us,atempo=1[a0]";
  pad_end := None;
  pad_start := Some "adelay=NaN|NaN|NaN"
|}.

Definition toneless_fragment : FilterWithoutPaddingApplied := {|
  filter := "[0:a]aformat=sample_fmts=s32:sample_rates=48000,atrim=0us:10000000us,atempo=2,volume=0.5:eval=once[a0]";
  pad_end := Some "apad=pad_len=96000";
  pad_start := Some "adelay=1000|1000|1000"
|}.

(** The sample request with an empty trim window at second 4. *)
Definition empty_window_fragment : FilterWithoutPaddingApplied := {|
  filter := "[0:a]aformat=sample_fmts=s32:sample_rates=48000,atrim=4000000us:4000000us,atempo=2,volume=0.5:eval=once[a0]";
  pad_end := Some "apad=pad_len=336000";
  pad_start := Some "adelay=1000|1000|1000"
|}.

(** The sample request with a tone of [1e-7]. *)
Definition small_tone_fragment : FilterWithoutPaddingApplied := {|
  filter := "[0:a]aformat=sample_fmts=s32:sample_rates=48000,atrim=0us:10000000us,atempo=2,volume=0.5:eval=once,asetrate=48000*1e-7,aresample=48000,atempo=1/1e-7[a0]";
  pad_end := Some "apad=pad_len=96000";
  pad_start := Some "adelay=1000|1000|1000"
|}.

(** Options of [selectComposition] over unit types, and a run of it in which
    the awaited call answers with the log level it was given. *)
Definition options (level : option string) (verbose : option bool)
  : SelectComposition.Options.t unit unit unit unit unit unit := {|
  SelectComposition.Options.inputProps := None;
  SelectComposition.Options.envVariables := None;
  SelectComposition.Options.puppeteerInstance := None;
  SelectComposition.Options.onBrowserLog := None;
  SelectComposition.Options.browserExecutable := None;
  SelectComposition.Options.chromiumOptions := None;
  SelectComposition.Options.port := None;
  SelectComposition.Options.verbose := verbose;
  SelectComposition.Options.serveUrl := "https://example.com";
  SelectComposition.Options.id := "HelloWorld";
  SelectComposition.Options.logLevel := level;
  SelectComposition.Options.timeoutInMilliseconds := None;
  SelectComposition.Options.offthreadVideoCacheSizeInBytes := None;
  SelectComposition.Options.binariesDirectory := None
|}.

Definition echo_level
    (config : SelectComposition.Config.t unit unit unit unit unit unit)
  : completion (SelectComposition.InternalReturnType string) :=
  Return {| SelectComposition.metadata := SelectComposition.Config.logLevel config;
            SelectComposition.propsSize := 0 |}.

Definition run (level : option string) (verbose : option bool)
  : completion string :=
  SelectComposition.selectComposition tt tt tt 30000 (fun _ => "{}")
    echo_level (options level verbose).

End MoreSamples.

(* ================================================================= *)
(** ** Part 4: the properties *)

(** *** Binary64 comparisons *)

Module FloatFacts.

Lemma SFcompare_antisym (x y : spec_float) :
  SFcompare y x = option_map CompOpp (SFcompare x y).
Proof.
  destruct x as [sx|sx| |sx mx ex], y as [sy|sy| |sy my ey]; simpl;
    try reflexivity;
    try (destruct sx; reflexivity);
    try (destruct sy; reflexivity);
    try (destruct sx, sy; reflexivity).
  destruct sx, sy; try reflexivity; simpl; f_equal;
    rewrite (Z.compare_antisym ex ey);
    destruct (ex ?= ey)%Z; simpl; try reflexivity;
    fold (Pos.compare my mx); fold (Pos.compare mx my);
    rewrite (Pos.compare_antisym my mx); try reflexivity;
    destruct (my ?= mx)%positive; reflexivity.
Qed.

Lemma SFcompare_refl (x : spec_float) :
  x <> S754_nan -> SFcompare x x = Some Eq.
Proof.
  destruct x as [s|s| |s m e]; simpl; intros H; try congruence;
    try (destruct s; reflexivity).
  destruct s; rewrite Z.compare_refl; fold (Pos.compare m m);
    rewrite Pos.compare_refl; reflexivity.
Qed.

Lemma is_nan_spec (x : float) :
  is_nan x = true <-> Prim2SF x = S754_nan.
Proof.
  unfold is_nan. rewrite FloatAxioms.eqb_spec. unfold SFeqb.
  destruct (Prim2SF x) as [s|s| |s m e] eqn:E.
  - destruct s; simpl; split; discriminate.
  - destruct s; simpl; split; discriminate.
  - simpl. tauto.
  - rewrite SFcompare_refl by discriminate. simpl; split; discriminate.
Qed.

Lemma is_nan_false (x : float) :
  is_nan x = false <-> Prim2SF x <> S754_nan.
Proof.
  rewrite <- is_nan_spec. destruct (is_nan x); split; congruence.
Qed.

Lemma is_zero_spec (x : float) :
  is_zero x = true <-> exists s, Prim2SF x = S754_zero s.
Proof.
  unfold is_zero. rewrite FloatAxioms.eqb_spec.
  change (Prim2SF PrimFloat.zero) with (S754_zero false). unfold SFeqb.
  destruct (Prim2SF x) as [s|s| |s m e]; simpl;
    try (destruct s; simpl); split; try discriminate;
    try (intros [s' H]; discriminate); eauto.
Qed.

(** The three outcomes of comparing two numbers, none of them NaN. *)
Lemma SFcompare_total (x y : spec_float) :
  x <> S754_nan -> y <> S754_nan -> exists c, SFcompare x y = Some c.
Proof.
  destruct x as [sx|sx| |sx mx ex], y as [sy|sy| |sy my ey]; simpl;
    intros Hx Hy; try congruence; eauto.
Qed.

Lemma SFcompare_nan (x y : spec_float) :
  SFcompare x y <> None -> x <> S754_nan /\ y <> S754_nan.
Proof.
  destruct x, y; simpl; intros H; split; congruence.
Qed.

Lemma leb_not_nan (a b : float) :
  (a <=? b)%float = true -> is_nan a = false /\ is_nan b = false.
Proof.
  rewrite leb_spec, !is_nan_false. unfold SFleb. intros H.
  apply SFcompare_nan. destruct (SFcompare _ _); congruence.
Qed.

Lemma ltb_not_nan (a b : float) :
  (a <? b)%float = true -> is_nan a = false /\ is_nan b = false.
Proof.
  rewrite ltb_spec, !is_nan_false. unfold SFltb. intros H.
  apply SFcompare_nan. destruct (SFcompare _ _); congruence.
Qed.

Lemma ltb_negb_leb (a b : float) :
  is_nan a = false -> is_nan b = false ->
  (a <? b)%float = negb (b <=? a)%float.
Proof.
  rewrite !is_nan_false, ltb_spec, leb_spec. unfold SFltb, SFleb.
  intros Ha Hb. rewrite (SFcompare_antisym (Prim2SF a) (Prim2SF b)).
  destruct (SFcompare_total _ _ Ha Hb) as [c ->]. destruct c; reflexivity.
Qed.

Lemma leb_ltb_false (a b : float) :
  (a <=? b)%float = true -> (b <? a)%float = false.
Proof.
  intros H. destruct (leb_not_nan _ _ H) as [Ha Hb].
  rewrite (ltb_negb_leb b a Hb Ha), H. reflexivity.
Qed.

Lemma ltb_zero_truthy (d : float) :
  (0 <? d)%float = true -> truthy_number d = true.
Proof.
  intros H. unfold truthy_number.
  destruct (ltb_not_nan _ _ H) as [_ ->]. rewrite orb_false_r.
  destruct (is_zero d) eqn:Z; [|reflexivity].
  apply is_zero_spec in Z. destruct Z as [s Z].
  rewrite ltb_spec, Z in H. discriminate H.
Qed.

(** A number that is at most a non-zero, non-NaN bound is the minimum. *)
Lemma Math_min_le (a b : float) :
  (a <=? b)%float = true -> truthy_number b = true -> Math_min a b = a.
Proof.
  intros Hle Hb. unfold Math_min.
  destruct (leb_not_nan _ _ Hle) as [-> ->]. simpl.
  destruct (a <? b)%float eqn:Hlt; [reflexivity|].
  rewrite (leb_ltb_false _ _ Hle).
  destruct (is_zero a) eqn:Za; [|reflexivity].
  exfalso. apply is_zero_spec in Za. destruct Za as [s Za].
  unfold truthy_number in Hb. apply negb_true_iff, orb_false_iff in Hb.
  destruct Hb as [Zb Nb].
  assert (is_zero b = true); [|congruence].
  apply is_zero_spec.
  rewrite leb_spec in Hle. rewrite ltb_spec in Hlt.
  unfold SFleb in Hle. unfold SFltb in Hlt. rewrite Za in Hle, Hlt.
  destruct (Prim2SF b) as [sb|sb| |sb mb eb]; simpl in *; eauto;
    try discriminate; destruct sb; discriminate.
Qed.

(** Subtracting [+0] changes nothing, and [+0] over a positive number is
    [+0]. *)
Lemma sub_zero_r (x : float) : (x - 0)%float = x.
Proof.
  apply Prim2SF_inj. rewrite sub_spec.
  change (Prim2SF 0) with (S754_zero false). unfold SF64sub.
  destruct (Prim2SF x) as [s|s| |s m e]; try reflexivity.
  destruct s; reflexivity.
Qed.

Lemma div_zero_l (pr : float) :
  (0 <? pr)%float = true -> (0 / pr)%float = 0%float.
Proof.
  intros H. apply Prim2SF_inj. rewrite div_spec. rewrite ltb_spec in H.
  change (Prim2SF 0) with (S754_zero false) in *. unfold SF64div, SFltb in *.
  destruct (Prim2SF pr) as [s|s| |s m e]; try discriminate H;
    destruct s; try discriminate H; reflexivity.
Qed.

(** For a number that is not NaN, lying outside (0, 2] is being at most
    [0] or above [2]. *)
Lemma outside_interval (t : float) :
  is_nan t = false ->
  negb ((0 <? t)%float && (t <=? 2)%float)
  = ((t <=? 0)%float || (2 <? t)%float).
Proof.
  intros Ht.
  rewrite (ltb_negb_leb 0 t) by (exact Ht || reflexivity).
  rewrite (ltb_negb_leb 2 t) by (exact Ht || reflexivity).
  destruct (t <=? 0)%float, (t <=? 2)%float; reflexivity.
Qed.

End FloatFacts.

(** *** String search *)

Module StringFacts.

Lemma prefix_app_l (n a b : string) :
  String.prefix n a = true -> String.prefix n (a ++ b) = true.
Proof.
  revert a. induction n as [|c n IH]; intros a H;
    [destruct (a ++ b); reflexivity|].
  destruct a as [|c' a]; simpl in *; [discriminate|].
  destruct (ascii_dec c c'); [auto|discriminate].
Qed.

Lemma includes_app_l (n a b : string) :
  includes n a = true -> includes n (a ++ b) = true.
Proof.
  induction a as [|c a IH]; simpl; intros H.
  - rewrite orb_false_r in H. destruct n; [|discriminate].
    destruct b; reflexivity.
  - apply orb_true_iff in H. apply orb_true_iff. destruct H as [H|H].
    + left. apply (prefix_app_l n (String c a) b H).
    + right. auto.
Qed.

Lemma includes_app_r (n a b : string) :
  includes n b = true -> includes n (a ++ b) = true.
Proof.
  intros H. induction a as [|c a IH]; simpl; [exact H|].
  rewrite IH. apply orb_true_r.
Qed.

End StringFacts.

(** *** The shortest decimal of a small number *)

Module DecimalFacts.
Import StringFacts.
Local Open Scope Q_scope.

Lemma Q10pow_le (a b : Z) : (a <= b)%Z -> Q10pow a <= Q10pow b.
Proof. intros H. apply Qpower_le_compat_l; [exact H|discriminate]. Qed.

Lemma Q2pow_le (a b : Z) : (a <= b)%Z -> Q2pow a <= Q2pow b.
Proof. intros H. apply Qpower_le_compat_l; [exact H|discriminate]. Qed.

Lemma Q2pow_pos (a : Z) : 0 < Q2pow a.
Proof. apply Qpower_0_lt. reflexivity. Qed.

(** A bound [10^b] above [x] is above the exponent of any power below [x]. *)
Lemma Q10pow_between (a b : Z) (x : Q) :
  Q10pow a <= x -> x < Q10pow b -> (a < b)%Z.
Proof.
  intros Hl Hu. destruct (Z.lt_ge_cases a b) as [H|H]; [exact H|].
  exfalso. apply (Qlt_irrefl x).
  apply Qlt_le_trans with (1 := Hu).
  apply Qle_trans with (2 := Hl). apply Q10pow_le, H.
Qed.

Lemma exponent_down_spec (fuel : nat) (j : Z) (x : Q) :
  Q10pow (exponent_down fuel j x - 1) <= x
  \/ exponent_down fuel j x = (j - Z.of_nat fuel)%Z.
Proof.
  revert j. induction fuel as [|fuel IH]; intros j.
  - right. simpl. lia.
  - cbn [exponent_down]. destruct (Qle_bool (Q10pow (j - 1)) x) eqn:E.
    + left. apply Qle_bool_iff, E.
    + destruct (IH (j - 1)%Z) as [H|H]; [left; exact H|right].
      rewrite H. lia.
Qed.

Lemma decimal_exponent_small (x : Q) :
  x < Q10pow (-6) -> (decimal_exponent x <= -6)%Z.
Proof.
  intros Hx. unfold decimal_exponent.
  destruct (Qle_bool 1 x) eqn:E.
  - exfalso. apply Qle_bool_iff in E. apply (Qlt_irrefl x).
    apply Qlt_le_trans with (1 := Hx). apply Qle_trans with (2 := E).
    discriminate.
  - destruct (exponent_down_spec 324 0 x) as [H|H].
    + pose proof (Q10pow_between _ _ _ H Hx). lia.
    + rewrite H. simpl. lia.
Qed.

Lemma rounds_to_hi (m : positive) (e : Z) (v : Q) :
  rounds_to m e v = true -> v <= round_hi m e.
Proof.
  unfold rounds_to, Qltb. destruct (Z.even (Z.pos m)); intros H;
    apply andb_true_iff in H; destruct H as [_ H].
  - apply Qle_bool_iff, H.
  - apply negb_true_iff in H. apply Qlt_le_weak, Qnot_le_lt.
    intros C. apply Qle_bool_iff in C. congruence.
Qed.

Lemma candidate_rounds (m : positive) (e n0 k s : Z) :
  candidate m e n0 k = Some s ->
  rounds_to m e (inject_Z s * Q10pow (n0 - k)) = true.
Proof.
  unfold candidate.
  destruct (rounds_to m e (inject_Z (Qfloor _) * _)) eqn:Elo;
    destruct (rounds_to m e (inject_Z (Qfloor _ + 1) * _)) eqn:Ehi;
    try discriminate.
  - destruct (Qcompare _ _); [destruct (Z.even _)| |];
      intros [= <-]; assumption.
  - intros [= <-]; assumption.
  - intros [= <-]; assumption.
Qed.

(** [10^k] at the scale [10^(n0-k)] is the power [10^n0]. *)
Lemma Q10pow_scale (n0 k : Z) :
  (0 <= k)%Z -> inject_Z (10 ^ k) * Q10pow (n0 - k) == Q10pow n0.
Proof.
  intros Hk. unfold Q10pow. rewrite Zpower_Qpower by exact Hk.
  rewrite <- Qpower_plus by discriminate.
  replace (k + (n0 - k))%Z with n0 by ring. reflexivity.
Qed.

(** The decimal found keeps the exponent [n0] unless [10^n0] itself rounds
    to the number; it has at least one digit. *)
Lemma shortest_from_spec (fuel : nat) (m : positive) (e n0 k : Z) :
  (1 <= k)%Z ->
  let d := shortest_from fuel m e n0 k in
  (1 <= dec_k d)%Z
  /\ (dec_n d = n0
      \/ (dec_n d = (n0 + 1)%Z /\ Q10pow n0 <= round_hi m e)).
Proof.
  revert k. induction fuel as [|fuel IH]; intros k Hk; cbn [shortest_from].
  - simpl. split; [exact Hk|left; reflexivity].
  - destruct (candidate m e n0 k) as [s|] eqn:Ec.
    + unfold normalise. destruct (s =? 10 ^ k)%Z eqn:Es; simpl.
      * split; [lia|right]. split; [reflexivity|].
        apply Z.eqb_eq in Es. subst s.
        apply candidate_rounds, rounds_to_hi in Ec.
        rewrite Q10pow_scale in Ec by lia. exact Ec.
      * split; [exact Hk|left; reflexivity].
    + apply IH. lia.
Qed.

Lemma shortest_decimal_small (m : positive) (e : Z) :
  round_hi m e < Q10pow (-6) ->
  magnitude m e < round_hi m e ->
  (1 <= dec_k (shortest_decimal m e))%Z
  /\ (dec_n (shortest_decimal m e) <= -6)%Z.
Proof.
  intros Hhi Hx. unfold shortest_decimal.
  assert (Hn0 : (decimal_exponent (magnitude m e) <= -6)%Z).
  { apply decimal_exponent_small. apply Qlt_trans with (1 := Hx), Hhi. }
  destruct (shortest_from_spec 17 m e (decimal_exponent (magnitude m e)) 1)
    as [Hk [Hn|[Hn Hr]]]; [lia| | ]; split; try exact Hk.
  - lia.
  - assert ((decimal_exponent (magnitude m e) < -6)%Z); [|lia].
    destruct (Z.lt_ge_cases (decimal_exponent (magnitude m e)) (-6)) as [H|H];
      [exact H|exfalso].
    assert (decimal_exponent (magnitude m e) = (-6)%Z) as E by lia.
    rewrite E in Hr. apply (Qlt_irrefl (round_hi m e)).
    apply Qlt_le_trans with (1 := Hhi), Hr.
Qed.

Lemma includes_e_minus (rest : string) :
  includes "e-" ("e" ++ "-" ++ rest) = true.
Proof. cbn. destruct rest; reflexivity. Qed.

(** Exponent notation with a negative exponent contains ["e-"]. *)
Lemma format_decimal_exponent (d : decimal) :
  (1 <= dec_k d)%Z -> (dec_n d <= -6)%Z ->
  includes "e-" (format_decimal d) = true.
Proof.
  intros Hk Hn. unfold format_decimal.
  replace ((dec_k d <=? dec_n d)%Z) with false by (symmetry; apply Z.leb_gt; lia).
  replace ((0 <? dec_n d)%Z) with false by (symmetry; apply Z.ltb_ge; lia).
  replace ((-6 <? dec_n d)%Z) with false by (symmetry; apply Z.ltb_ge; lia).
  replace ((dec_n d - 1 <? 0)%Z) with true by (symmetry; apply Z.ltb_lt; lia).
  cbn [andb]. destruct (dec_k d =? 1)%Z.
  - apply includes_app_r, includes_e_minus.
  - do 3 apply includes_app_r. apply includes_e_minus.
Qed.

End DecimalFacts.

(** *** Numbers below [1e-6] print in exponent notation *)

Module PrintingFacts.
Import FloatFacts StringFacts DecimalFacts.
Local Open Scope Q_scope.

Lemma digits2_pos_size (m : positive) : digits2_pos m = Pos.size m.
Proof. induction m; simpl; congruence. Qed.

(** A binary64 mantissa has at most 53 bits. *)
Lemma valid_mantissa (s : bool) (m : positive) (e : Z) :
  valid_binary (S754_finite s m e) = true -> (Zpos m < 2 ^ 53)%Z.
Proof.
  unfold valid_binary, bounded, canonical_mantissa, fexp, SpecFloat.emin.
  intros H. apply andb_true_iff in H. destruct H as [H _].
  apply Z.eqb_eq in H. rewrite digits2_pos_size in H.
  pose proof (Pos.size_gt m) as Hm.
  assert (Hs : (Zpos (Pos.size m) <= 53)%Z) by (unfold prec in H; lia).
  apply Z.lt_le_trans with (2 ^ Zpos (Pos.size m))%Z.
  - rewrite <- Pos2Z.inj_pow. apply Pos2Z.pos_lt_pos, Hm.
  - apply Z.pow_le_mono_r; lia.
Qed.

Lemma magnitude_lt_hi (m : positive) (e : Z) :
  magnitude m e < round_hi m e.
Proof.
  unfold magnitude, round_hi.
  assert (E : Q2pow e == 2 * Q2pow (e - 1)).
  { unfold Q2pow. replace e with (1 + (e - 1))%Z at 1 by ring.
    rewrite Qpower_plus by discriminate. reflexivity. }
  rewrite E, Qmult_assoc. apply Qmult_lt_compat_r; [apply Q2pow_pos|].
  change 2 with (inject_Z 2).
  rewrite <- inject_Z_mult, <- Zlt_Qlt. lia.
Qed.

(** Below the double nearest to [1e-6], whose mantissa is
    [4722366482869645] at exponent [-72], every decimal that rounds to the
    number is below [10^(-6)]. *)
Lemma round_hi_small (m : positive) (e : Z) :
  (Zpos m < 2 ^ 53)%Z ->
  (e < -72 \/ (e = -72 /\ Zpos m < 4722366482869645))%Z ->
  round_hi m e < Q10pow (-6).
Proof.
  intros Hm [He|[-> Hlt]]; unfold round_hi.
  - apply Qle_lt_trans with (inject_Z (2 ^ 54) * Q2pow (-74)); [|reflexivity].
    apply Qle_trans with (inject_Z (2 ^ 54) * Q2pow (e - 1)).
    + apply Qmult_le_compat_r; [|apply Qlt_le_weak, Q2pow_pos].
      rewrite <- Zle_Qle. lia.
    + apply Qmult_le_l; [reflexivity|]. apply Q2pow_le. lia.
  - apply Qle_lt_trans
      with (inject_Z (2 * 4722366482869645 - 1) * Q2pow (-72 - 1));
      [|reflexivity].
    apply Qmult_le_compat_r; [|apply Qlt_le_weak, Q2pow_pos].
    rewrite <- Zle_Qle. lia.
Qed.

Lemma Prim2SF_micro :
  Prim2SF 0.000001 = S754_finite false 4722366482869645 (-72).
Proof. reflexivity. Qed.

(** Below a positive finite bound lie the zeros and the finite numbers of
    smaller exponent, or of the same exponent and smaller mantissa. *)
Lemma SFltb_abs_finite (x : spec_float) (m0 : positive) (e0 : Z) :
  SFltb (SFabs x) (S754_finite false m0 e0) = true ->
  (exists s, x = S754_zero s)
  \/ (exists s m e, x = S754_finite s m e
        /\ (e < e0 \/ (e = e0 /\ Zpos m < Zpos m0))%Z).
Proof.
  unfold SFltb. destruct x as [s|s| |s m e]; cbn [SFabs SFcompare].
  - intros _. left. eauto.
  - intros H. discriminate H.
  - intros H. discriminate H.
  - intros H. right. exists s, m, e. split; [reflexivity|].
    destruct (Z.compare_spec e e0) as [E|E|E].
    + right. split; [exact E|].
      fold (Pos.compare m m0) in H.
      destruct (Pos.compare_spec m m0) as [C|C|C];
        [discriminate H|lia|discriminate H].
    + left. exact E.
    + discriminate H.
Qed.

Lemma abs_small_cases (v : float) :
  (abs v <? 0.000001)%float = true ->
  (exists s, Prim2SF v = S754_zero s)
  \/ (exists s m e, Prim2SF v = S754_finite s m e
        /\ (e < -72 \/ (e = -72 /\ Zpos m < 4722366482869645))%Z).
Proof.
  rewrite ltb_spec, abs_spec, Prim2SF_micro. apply SFltb_abs_finite.
Qed.

(** Every non-zero number of magnitude below [1e-6] prints in exponent
    notation with a negative exponent. *)
Lemma Number_toString_small (v : float) :
  (abs v <? 0.000001)%float = true -> is_zero v = false ->
  includes "e-" (Number_toString v) = true.
Proof.
  intros H Hz. destruct (abs_small_cases v H) as [[s E]|(s & m & e & E & Hs)].
  - assert (is_zero v = true) by (apply is_zero_spec; eauto). congruence.
  - unfold Number_toString. rewrite E.
    pose proof (Prim2SF_valid v) as Hv. rewrite E in Hv.
    apply valid_mantissa in Hv.
    destruct (shortest_decimal_small m e) as [Hk Hn].
    + apply round_hi_small; assumption.
    + apply magnitude_lt_hi.
    + apply includes_app_r, format_decimal_exponent; assumption.
Qed.

Lemma Number_toString_zero (v : float) :
  is_zero v = true -> Number_toString v = "0"%string.
Proof.
  intros H. apply is_zero_spec in H. destruct H as [s H].
  unfold Number_toString. rewrite H. reflexivity.
Qed.

Lemma stringifyTrim_small (trim : float) :
  (abs (trim * 1000000) <? 0.000001)%float = true ->
  stringifyTrim trim = "0us"%string.
Proof.
  intros H. unfold stringifyTrim.
  destruct (is_zero (trim * 1000000)) eqn:Hz.
  - rewrite (Number_toString_zero _ Hz). reflexivity.
  - rewrite (includes_app_l _ _ "us" (Number_toString_small _ H Hz)).
    reflexivity.
Qed.

End PrintingFacts.

(** *** Counting the occurrences of a word *)

Module OccurrenceFacts.

Lemma includes_occurrences (n s : string) :
  includes n s = negb (occurrences n s =? 0)%nat.
Proof.
  induction s as [|c s IH].
  - cbn [includes occurrences]. destruct (String.prefix n ""); reflexivity.
  - cbn [includes occurrences]. rewrite IH.
    destruct (String.prefix n (String c s)); [reflexivity|].
    reflexivity.
Qed.

Lemma lacks_app (c : ascii) (a b : string) :
  lacks c (a ++ b) = lacks c a && lacks c b.
Proof.
  induction a as [|c' a IH]; [reflexivity|].
  cbn [append lacks]. rewrite IH. apply andb_assoc.
Qed.

Lemma lacks_substring (c : ascii) (s : string) (n m : nat) :
  lacks c s = true -> lacks c (String.substring n m s) = true.
Proof.
  revert n m. induction s as [|c' s IH]; intros n m H.
  - destruct n, m; reflexivity.
  - cbn [lacks] in H. apply andb_true_iff in H. destruct H as [Hc Hs].
    destruct n as [|n]; [destruct m as [|m]|]; cbn [String.substring lacks].
    + reflexivity.
    + rewrite Hc. apply IH, Hs.
    + apply IH, Hs.
Qed.

Lemma prefix_head (c : ascii) (p s : string) (c' : ascii) :
  Ascii.eqb c' c = false -> String.prefix (String c p) (String c' s) = false.
Proof.
  intros H. cbn -[ascii_dec]. destruct (ascii_dec c c') as [E|_]; [|reflexivity].
  subst c'. rewrite Ascii.eqb_refl in H. discriminate H.
Qed.

(** No occurrence starts inside a stretch that lacks the first character of
    the needle. *)
Lemma occurrences_skip (c : ascii) (p a b : string) :
  lacks c a = true ->
  occurrences (String c p) (a ++ b) = occurrences (String c p) b.
Proof.
  induction a as [|c' a IH]; intros H; [reflexivity|].
  cbn [lacks] in H. apply andb_true_iff in H. destruct H as [Hc Ha].
  apply negb_true_iff in Hc.
  cbn [append occurrences]. rewrite (prefix_head c p (a ++ b) c' Hc).
  apply IH, Ha.
Qed.

Lemma append_nil_r (a : string) : a ++ "" = a.
Proof. induction a as [|c a IH]; [reflexivity|]. cbn. rewrite IH. reflexivity. Qed.

Lemma append_assoc (a b c : string) : (a ++ b) ++ c = a ++ b ++ c.
Proof. induction a as [|x a IH]; [reflexivity|]. cbn. rewrite IH. reflexivity. Qed.

Lemma occurrences_lacking (c : ascii) (p a : string) :
  lacks c a = true -> occurrences (String c p) a = 0%nat.
Proof.
  intros H. rewrite <- (append_nil_r a).
  rewrite (occurrences_skip c p a "" H). reflexivity.
Qed.

Lemma prefix_stop (p s b : string) :
  stops p b = true -> String.prefix p (s ++ b) = String.prefix p s.
Proof.
  intros Hb. destruct b as [|d b]; [rewrite append_nil_r; reflexivity|].
  cbn [stops] in Hb. revert s.
  induction p as [|c p IH]; intros s.
  - destruct s; reflexivity.
  - cbn [lacks] in Hb. apply andb_true_iff in Hb. destruct Hb as [Hc Hp].
    destruct s as [|c0 s].
    + cbn -[ascii_dec]. destruct (ascii_dec c d) as [E|_]; [|reflexivity].
      subst d. rewrite Ascii.eqb_refl in Hc. discriminate Hc.
    + cbn -[ascii_dec]. destruct (ascii_dec c c0); [apply IH, Hp|reflexivity].
Qed.

(** Occurrences do not straddle a boundary that stops them. *)
Lemma occurrences_stop (c : ascii) (p s b : string) :
  stops (String c p) b = true ->
  occurrences (String c p) (s ++ b)
  = (occurrences (String c p) s + occurrences (String c p) b)%nat.
Proof.
  intros Hb. induction s as [|c0 s IH]; [reflexivity|].
  change (String c0 s ++ b) with (String c0 (s ++ b)).
  cbn [occurrences].
  change (String c0 (s ++ b)) with (String c0 s ++ b).
  rewrite (prefix_stop _ (String c0 s) b Hb), IH. lia.
Qed.

(** The occurrences in a filter string, clause by clause. *)
Lemma occurrences_joined (c : ascii) (p : string) (l : list string) (b : string) :
  stops (String c p) "," = true -> stops (String c p) b = true ->
  occurrences (String c p) (join "," l ++ b)
  = (list_sum (List.map (occurrences (String c p)) l)
     + occurrences (String c p) b)%nat.
Proof.
  intros Hsep Hb. unfold join. induction l as [|x l IH]; [reflexivity|].
  destruct l as [|y l].
  - cbn [String.concat List.map list_sum List.fold_right].
    rewrite (occurrences_stop c p x b Hb). lia.
  - change (String.concat "," (x :: y :: l))
      with (x ++ "," ++ String.concat "," (y :: l)).
    rewrite !append_assoc.
    change ("," ++ String.concat "," (y :: l) ++ b)
      with (String "," (String.concat "," (y :: l) ++ b)).
    rewrite (occurrences_stop c p x
               (String "," (String.concat "," (y :: l) ++ b)) Hsep).
    cbn [occurrences]. 
    assert (Hh : String.prefix (String c p)
                   (String "," (String.concat "," (y :: l) ++ b)) = false).
    { cbn [stops lacks] in Hsep. apply andb_true_iff in Hsep.
      destruct Hsep as [Hc _]. apply negb_true_iff in Hc.
      apply prefix_head. exact Hc. }
    rewrite Hh, IH.
    change (list_sum (List.map ?f (x :: y :: l)))
      with (f x + list_sum (List.map f (y :: l)))%nat.
    cbv beta. lia.
Qed.

(** *** No [v] in a printed number *)

Lemma lacks_v_uint (d : Decimal.uint) :
  lacks "v" (NilEmpty.string_of_uint d) = true.
Proof. induction d; cbn; assumption || reflexivity. Qed.

Lemma lacks_v_digits (z : Z) : lacks "v" (digits z) = true.
Proof.
  unfold digits, NilZero.string_of_uint.
  destruct (N.to_uint (Z.to_N z)) eqn:E; try reflexivity;
    rewrite <- E; apply lacks_v_uint.
Qed.

Lemma lacks_v_zeros (n : nat) : lacks "v" (zeros n) = true.
Proof. induction n; [reflexivity|exact IHn]. Qed.

Lemma lacks_v_format (d : decimal) : lacks "v" (format_decimal d) = true.
Proof.
  unfold format_decimal, take, drop.
  destruct ((dec_k d <=? dec_n d)%Z && (dec_n d <=? 21)%Z).
  { rewrite lacks_app, lacks_v_digits, lacks_v_zeros. reflexivity. }
  destruct ((0 <? dec_n d)%Z && (dec_n d <=? 21)%Z).
  { rewrite !lacks_app, !lacks_substring by apply lacks_v_digits.
    reflexivity. }
  destruct ((-6 <? dec_n d)%Z && (dec_n d <=? 0)%Z).
  { rewrite !lacks_app, lacks_v_zeros, lacks_v_digits. reflexivity. }
  destruct (dec_n d - 1 <? 0)%Z, (dec_k d =? 1)%Z;
    rewrite !lacks_app, ?lacks_substring by apply lacks_v_digits;
    rewrite !lacks_v_digits; reflexivity.
Qed.

Lemma lacks_v_Number_toString (x : float) :
  lacks "v" (Number_toString x) = true.
Proof.
  unfold Number_toString. destruct (Prim2SF x) as [s|s| |s m e];
    try reflexivity; [destruct s; reflexivity|].
  rewrite lacks_app, lacks_v_format. destruct s; reflexivity.
Qed.

Lemma lacks_v_stringifyTrim (trim : float) :
  lacks "v" (stringifyTrim trim) = true.
Proof.
  unfold stringifyTrim. destruct (includes _ _); [reflexivity|].
  rewrite lacks_app, lacks_v_Number_toString. reflexivity.
Qed.

End OccurrenceFacts.

(** *** The clauses of the filter string *)

Module ClauseFacts.
Import OccurrenceFacts StringFacts.

Lemma prefix_self (p s : string) : String.prefix p (p ++ s) = true.
Proof.
  induction p as [|c p IH]; [destruct s; reflexivity|].
  cbn -[ascii_dec]. destruct (ascii_dec c c) as [_|N]; [exact IH|].
  exfalso. apply N. reflexivity.
Qed.

Lemma includes_self (p s : string) : includes p (p ++ s) = true.
Proof.
  destruct (p ++ s) as [|c t] eqn:E; cbn [includes]; rewrite <- E, prefix_self;
    reflexivity.
Qed.

Lemma includes_in_joined (n s : string) (l : list string) :
  In s l -> includes n s = true -> includes n (join "," l) = true.
Proof.
  unfold join. intros Hin Hn.
  induction l as [|x l IH]; [destruct Hin|]. destruct Hin as [->|Hin].
  - destruct l as [|y l]; [exact Hn|].
    change (String.concat "," (s :: y :: l))
      with (s ++ "," ++ String.concat "," (y :: l)).
    apply includes_app_l, Hn.
  - destruct l as [|y l]; [destruct Hin|].
    change (String.concat "," (x :: y :: l))
      with (x ++ "," ++ String.concat "," (y :: l)).
    apply includes_app_r. apply (includes_app_r n "," _). apply IH, Hin.
Qed.

Lemma includes_refl (s : string) : includes s s = true.
Proof. rewrite <- (append_nil_r s) at 2. apply includes_self. Qed.

Lemma includes_joined (s : string) (l : list string) :
  In s l -> includes s (join "," l) = true.
Proof. intros H. apply (includes_in_joined s s l H), includes_refl. Qed.

Lemma occurrences_kept (l : list (option string)) :
  occurrences "volume="
    ("[0:a]" ++ join_nullable "," (List.filter truthy l) ++ "[a0]")
  = list_sum (List.map clause_occurrences l).
Proof.
  rewrite (occurrences_skip "v" "olume=" "[0:a]") by reflexivity.
  unfold join_nullable.
  rewrite (occurrences_joined "v" "olume=") by reflexivity.
  change (occurrences "volume=" "[a0]") with 0%nat. rewrite Nat.add_0_r.
  induction l as [|c l IH]; [reflexivity|].
  change (list_sum (List.map ?f (c :: l)))
    with (f c + list_sum (List.map f l))%nat.
  rewrite <- IH. cbn [List.filter].
  destruct c as [[|a s]|]; cbn [truthy truthy_string]; try reflexivity.
Qed.

Lemma volume_clause_occurrences (value eval : string) :
  occurrences "volume=" ("volume=" ++ value ++ ":eval=" ++ eval)
  = (1 + occurrences "volume=" value + occurrences "volume=" eval)%nat.
Proof.
  change ("volume=" ++ value ++ ":eval=" ++ eval)
    with (String "v" ("olume=" ++ value ++ ":eval=" ++ eval)).
  cbn [occurrences].
  change (String "v" ("olume=" ++ value ++ ":eval=" ++ eval))
    with ("volume=" ++ value ++ ":eval=" ++ eval).
  rewrite prefix_self.
  rewrite (occurrences_skip "v" "olume=" "olume=") by reflexivity.
  rewrite (occurrences_stop "v" "olume=" value (":eval=" ++ eval))
    by reflexivity.
  change (":eval=" ++ eval) with (":e" ++ "val=" ++ eval).
  rewrite (occurrences_skip "v" "olume=" ":e" ("val=" ++ eval)) by reflexivity.
  change ("val=" ++ eval) with (String "v" ("al=" ++ eval)).
  cbn [occurrences].
  replace (String.prefix "volume=" (String "v" ("al=" ++ eval))) with false
    by reflexivity.
  rewrite (occurrences_skip "v" "olume=" "al=" eval) by reflexivity.
  lia.
Qed.

Lemma lacking_clause (s : string) :
  lacks "v" s = true -> clause_occurrences (Some s) = 0%nat.
Proof. apply occurrences_lacking. Qed.

Lemma tone_clause_lacks_v (rate : float) (t : float) :
  lacks "v" ("asetrate=" ++ Number_toString rate
               ++ "*" ++ Number_toString t
               ++ ",aresample=" ++ Number_toString rate
               ++ ",atempo=1/" ++ Number_toString t) = true.
Proof. rewrite !lacks_app, !lacks_v_Number_toString. reflexivity. Qed.

Lemma atrim_clause_lacks_v (a b : float) :
  lacks "v" ("atrim=" ++ stringifyTrim a ++ ":" ++ stringifyTrim b) = true.
Proof. rewrite !lacks_app, !lacks_v_stringifyTrim. reflexivity. Qed.

Lemma aformat_clause_lacks_v (rate : float) :
  lacks "v" ("aformat=sample_fmts=s32:sample_rates=" ++ Number_toString rate)
  = true.
Proof. rewrite lacks_app, lacks_v_Number_toString. reflexivity. Qed.

End ClauseFacts.

(** *** Small tones *)

Module ToneFacts.
Import FloatFacts PrintingFacts.

Lemma positive_abs (t c : float) :
  (t <=? 0)%float = false -> (t <? c)%float = true ->
  (abs t <? c)%float = true.
Proof.
  rewrite leb_spec, !ltb_spec, abs_spec.
  change (Prim2SF 0) with (S754_zero false).
  destruct (Prim2SF t) as [s|s| |s m e]; cbn [SFabs]; unfold SFleb;
    cbn [SFcompare]; try discriminate; try (intros _ H; exact H);
    destruct s; try discriminate; intros _ H; exact H.
Qed.

Lemma small_not_one (t : float) :
  (abs t <? 0.000001)%float = true -> (t =? 1)%float = false.
Proof.
  intros H. rewrite FloatAxioms.eqb_spec.
  change (Prim2SF 1) with (S754_finite false 4503599627370496 (-52)).
  destruct (abs_small_cases t H) as [[s E]|(s & m & e & E & Hs)];
    rewrite E; unfold SFeqb; cbn [SFcompare]; [reflexivity|].
  destruct s; [reflexivity|].
  assert (L : (e ?= -52)%Z = Lt) by (apply Z.compare_lt_iff; lia).
  rewrite L. reflexivity.
Qed.

Lemma small_not_nan (t : float) :
  (abs t <? 0.000001)%float = true -> is_nan t = false.
Proof.
  intros H. apply is_nan_false.
  destruct (abs_small_cases t H) as [[s E]|(s & m & e & E & _)]; rewrite E;
    discriminate.
Qed.

End ToneFacts.

(** *** The builder *)

Section Properties.

Context {AssetVolume : Type} {collaborators : Collaborators AssetVolume}.

(** [trimAndSetTempo] always returns: its last [throw] is unreachable. *)
Lemma trimAndSetTempo_returns (pr tl tr : float) (seamless : bool)
    (ad : option float) :
  exists tt, trimAndSetTempo pr tl tr seamless ad = Return tt.
Proof. unfold trimAndSetTempo. destruct seamless; simpl; eauto. Qed.

(** What a request that yields a fragment went through. *)
Lemma builder_fragment (r : Request AssetVolume)
    (res : FilterWithoutPaddingApplied) :
  stringifyFfmpegFilter r = Return (Some res) ->
  trimmed_away r = false
  /\ exists tt,
       trimAndSetTempo (playbackRate r) (trimLeft r) (trimRight r)
         (forSeamlessAacConcatenation r) (assetDuration r) = Return tt
       /\ filter res =
            "[0:a]"
            ++ join_nullable ","
                 (List.filter truthy
                    (filterClauses (TrimAndTempo.filter tt)
                       (ffmpegVolumeExpression (volume r) (fps r)
                          (TrimAndTempo.actualTrimLeft tt)
                          (allowAmplificationDuringRender r))
                       (toneFrequency r)))
            ++ "[a0]"
       /\ pad_end res =
            (let padAtEnd :=
               (chunkLengthInSeconds r - TrimAndTempo.audibleDuration tt
                - startInVideo r / fps r)%float in
             if gtb padAtEnd 0.0000001
             then Some ("apad=pad_len="
                          ++ Number_toString
                               (Math_round (padAtEnd * DEFAULT_SAMPLE_RATE)%float))
             else None)
       /\ (if (startInVideo r / fps r =? 0)%float then pad_start res = None
           else exists delays,
                  new_Array_fill (channels r + 1)%float
                    (toFixed0 (startInVideo r / fps r * 1000)%float)
                  = Return delays
                  /\ pad_start res = Some ("adelay=" ++ join "|" delays)).
Proof.
  unfold stringifyFfmpegFilter, trimmed_away. intros H.
  destruct (match assetDuration r with Some _ => _ | None => _ end);
    [discriminate H|].
  split; [reflexivity|].
  destruct (match toneFrequency r with Some _ => _ | None => _ end);
    [discriminate H|].
  destruct (trimAndSetTempo_returns (playbackRate r) (trimLeft r) (trimRight r)
              (forSeamlessAacConcatenation r) (assetDuration r)) as [tt Ett].
  rewrite Ett in H. exists tt. split; [exact Ett|].
  cbn [bind] in H.
  destruct (startInVideo r / fps r =? 0)%float.
  - cbn [bind] in H. injection H as <-. cbn. auto.
  - destruct (new_Array_fill _ _) as [delays|e]; cbn [bind] in H;
      [|discriminate H].
    injection H as <-. cbn. eauto.
Qed.

Lemma builder_trimmed_away (r : Request AssetVolume) :
  trimmed_away r = true -> stringifyFfmpegFilter r = Return None.
Proof.
  unfold stringifyFfmpegFilter, trimmed_away. intros ->. reflexivity.
Qed.

Lemma builder_tone_rejected (r : Request AssetVolume) :
  trimmed_away r = false -> tone_rejected r = true ->
  stringifyFfmpegFilter r = Throw tone_error.
Proof.
  unfold stringifyFfmpegFilter, trimmed_away, tone_rejected.
  intros -> ->. reflexivity.
Qed.

(** Past both guards the builder returns a fragment, unless [new Array]
    rejects [channels + 1]. *)
Lemma builder_past_guards (r : Request AssetVolume) :
  trimmed_away r = false -> tone_rejected r = false ->
  (exists res, stringifyFfmpegFilter r = Return (Some res))
  \/ (exists message, stringifyFfmpegFilter r = Throw (RangeError message)).
Proof.
  unfold stringifyFfmpegFilter, trimmed_away, tone_rejected. intros -> ->.
  destruct (trimAndSetTempo_returns (playbackRate r) (trimLeft r) (trimRight r)
              (forSeamlessAacConcatenation r) (assetDuration r)) as [tt ->].
  cbn [bind]. destruct (startInVideo r / fps r =? 0)%float; cbn [bind];
    [eauto|].
  unfold new_Array_fill.
  destruct (integer_value (channels r + 1)%float) as [z|];
    [destruct (_ && _)|]; cbn [bind]; eauto.
Qed.

(** Past the first guard the builder returns a fragment or throws. *)
Lemma builder_not_null (r : Request AssetVolume) :
  trimmed_away r = false -> stringifyFfmpegFilter r <> Return None.
Proof.
  intros Hg. destruct (tone_rejected r) eqn:Ht.
  - rewrite (builder_tone_rejected r Hg Ht). discriminate.
  - destruct (builder_past_guards r Hg Ht) as [[res ->]|[message ->]];
      discriminate.
Qed.

(** A right bound within the asset is not clamped. *)
Lemma trimRightOrAssetDuration_within (tr : float) (ad : option float) :
  (forall d, ad = Some d -> (tr <=? d)%float = true) ->
  trimRightOrAssetDuration tr ad = tr.
Proof.
  intros H. unfold trimRightOrAssetDuration. destruct ad as [d|]; [|reflexivity].
  destruct (truthy_number d) eqn:Hd; [|reflexivity].
  apply FloatFacts.Math_min_le; [apply H; reflexivity|exact Hd].
Qed.

(** C1 (amended).  With the right bound inside the asset, the audible
    duration is [(trimRight - trimLeft) / playbackRate] in default mode and
    [trimRight / playbackRate - trimLeft / playbackRate] in seamless mode,
    each computed in binary64: the same quantity, rounded in a different
    order.  The two modes return the same number when [trimLeft] is [0] and
    [playbackRate] is positive. *)
Theorem audibleDuration_by_mode (pr tl tr : float) (ad : option float) :
  (forall d, ad = Some d -> (tr <=? d)%float = true) ->
  option_map TrimAndTempo.audibleDuration
    (returned (trimAndSetTempo pr tl tr false ad)) = Some ((tr - tl) / pr)%float
  /\ option_map TrimAndTempo.audibleDuration
       (returned (trimAndSetTempo pr tl tr true ad)) = Some (tr / pr - tl / pr)%float
  /\ (tl = 0%float -> (0 <? pr)%float = true ->
      returned (trimAndSetTempo pr tl tr true ad) <> None
      /\ option_map TrimAndTempo.audibleDuration
           (returned (trimAndSetTempo pr tl tr true ad))
         = option_map TrimAndTempo.audibleDuration
             (returned (trimAndSetTempo pr tl tr false ad))).
Proof.
  intros H. unfold trimAndSetTempo.
  rewrite (trimRightOrAssetDuration_within tr ad H). cbn.
  repeat split; try discriminate.
  subst tl. rewrite (FloatFacts.div_zero_l pr) by assumption.
  rewrite !FloatFacts.sub_zero_r. reflexivity.
Qed.

(** C2 (amended).  A duration whose value in microseconds has magnitude
    below [1e-6] (zero included) is formatted as ["0us"], and formatting is
    a function of the duration. *)
Theorem stringifyTrim_rounding_artifact (trim : float) :
  (abs (trim * 1000000) <? 0.000001)%float = true ->
  stringifyTrim trim = "0us"
  /\ forall again : float, again = trim -> stringifyTrim again = stringifyTrim trim.
Proof.
  intros H. split; [apply PrintingFacts.stringifyTrim_small, H|].
  intros again ->. reflexivity.
Qed.

(** C3 (amended).  When [assetDuration] is known, not zero and not NaN, and
    [trimLeft >= assetDuration], the builder returns [null]; so it does for
    every request with [trimLeft = 5] and [assetDuration = 3]. *)
Theorem no_fragment_past_asset_end (r : Request AssetVolume) (d : float) :
  assetDuration r = Some d ->
  truthy_number d = true ->
  geb (trimLeft r) d = true ->
  stringifyFfmpegFilter r = Return None
  /\ forall r' : Request AssetVolume,
       trimLeft r' = 5%float -> assetDuration r' = Some 3%float ->
       stringifyFfmpegFilter r' = Return None.
Proof.
  intros Hd Ht Hge. split.
  - apply builder_trimmed_away. unfold trimmed_away.
    rewrite Hd, Ht, Hge. reflexivity.
  - intros r' Hl Ha. apply builder_trimmed_away. unfold trimmed_away.
    rewrite Ha, Hl. reflexivity.
Qed.

(** C4.  In seamless mode the composer emits the tempo clause, then the trim
    clause over both bounds divided by [playbackRate]; in default mode the
    trim clause over the bounds as they are, then the tempo clause.  The
    right bound is [trimRight] itself unless the asset ends before it. *)
Theorem trim_tempo_order (pr tl tr : float) (ad : option float) :
  option_map TrimAndTempo.filter (returned (trimAndSetTempo pr tl tr true ad))
  = Some [ calculateATempo pr;
           Some ("atrim=" ++ stringifyTrim (tl / pr)%float ++ ":"
                   ++ stringifyTrim (trimRightOrAssetDuration tr ad / pr)%float) ]
  /\ option_map TrimAndTempo.filter (returned (trimAndSetTempo pr tl tr false ad))
     = Some [ Some ("atrim=" ++ stringifyTrim tl ++ ":"
                      ++ stringifyTrim (trimRightOrAssetDuration tr ad));
              calculateATempo pr ]
  /\ ((forall d, ad = Some d -> (tr <=? d)%float = true) ->
      trimRightOrAssetDuration tr ad = tr).
Proof.
  split; [reflexivity|]. split; [reflexivity|].
  apply trimRightOrAssetDuration_within.
Qed.

(** C5 (amended).  Once the asset is not trimmed away, and for a
    [toneFrequency] that is not NaN, the builder throws the validation error
    exactly when [toneFrequency] is given and lies outside (0, 2]: [3] and
    [0] lie outside, [2] does not, and [null] never raises it. *)
Theorem tone_validation (r : Request AssetVolume) :
  trimmed_away r = false ->
  (forall t, toneFrequency r = Some t -> is_nan t = false) ->
  (stringifyFfmpegFilter r = Throw tone_error
   <-> exists t, toneFrequency r = Some t /\ outside_tone_range t = true)
  /\ outside_tone_range 3 = true
  /\ outside_tone_range 0 = true
  /\ outside_tone_range 2 = false.
Proof.
  intros Hg Hnan. split; [|repeat split].
  assert (E : forall t, toneFrequency r = Some t ->
                        outside_tone_range t = tone_rejected r).
  { intros t Ht. unfold tone_rejected. rewrite Ht.
    apply FloatFacts.outside_interval, Hnan, Ht. }
  destruct (tone_rejected r) eqn:Hr.
  - split; [|intros _; apply (builder_tone_rejected r Hg Hr)].
    intros _. unfold tone_rejected in Hr.
    destruct (toneFrequency r) as [t|] eqn:Ht; [|discriminate Hr].
    exists t. split; [reflexivity|]. apply E. reflexivity.
  - split; [|intros (t & Ht & Ho); rewrite (E t Ht) in Ho; discriminate Ho].
    destruct (builder_past_guards r Hg Hr) as [[res ->]|[message ->]];
      discriminate.
Qed.

(** C6.  For every fragment, with
    [padAtEnd = chunkLengthInSeconds - audibleDuration - startInVideo / fps],
    [pad_end] is [apad=pad_len=] followed by [padAtEnd] times the sample
    rate, rounded, when [padAtEnd > 1e-7], and [null] otherwise; a shortfall
    of two seconds pads by twice the sample rate. *)
Theorem pad_end_spec (r : Request AssetVolume)
    (res : FilterWithoutPaddingApplied) :
  stringifyFfmpegFilter r = Return (Some res) ->
  exists tt,
    trimAndSetTempo (playbackRate r) (trimLeft r) (trimRight r)
      (forSeamlessAacConcatenation r) (assetDuration r) = Return tt
    /\ let padAtEnd :=
         (chunkLengthInSeconds r - TrimAndTempo.audibleDuration tt
          - startInVideo r / fps r)%float in
       (gtb padAtEnd 0.0000001 = true ->
        pad_end res
        = Some ("apad=pad_len="
                  ++ Number_toString
                       (Math_round (padAtEnd * DEFAULT_SAMPLE_RATE)%float)))
       /\ (gtb padAtEnd 0.0000001 = false -> pad_end res = None)
       /\ (padAtEnd = 2%float ->
           pad_end res
           = Some ("apad=pad_len="
                     ++ Number_toString
                          (Math_round (2 * DEFAULT_SAMPLE_RATE)%float))).
Proof.
  intros H. destruct (builder_fragment r res H) as (_ & tt & Ett & _ & Hp & _).
  exists tt. split; [exact Ett|]. cbv zeta in *.
  repeat split.
  - intros Hgt. rewrite Hgt in Hp. exact Hp.
  - intros Hgt. rewrite Hgt in Hp. exact Hp.
  - intros E. rewrite E in Hp. exact Hp.
Qed.

(** C7.  For every fragment, [pad_start] is [null] exactly when
    [startInVideo / fps] is zero; otherwise it is [adelay=] followed by the
    delay in milliseconds, rounded, listed [channels + 1] times; one second
    in with two channels gives three values of [1000]. *)
Theorem pad_start_spec (r : Request AssetVolume)
    (res : FilterWithoutPaddingApplied) :
  stringifyFfmpegFilter r = Return (Some res) ->
  (pad_start res = None <-> (startInVideo r / fps r =? 0)%float = true)
  /\ ((startInVideo r / fps r =? 0)%float = false ->
      exists n : nat,
        option_map Z.to_nat (integer_value (channels r + 1)%float) = Some n
        /\ pad_start res
           = Some ("adelay="
                     ++ join "|"
                          (List.repeat
                             (toFixed0 (startInVideo r / fps r * 1000)%float)
                             n)))
  /\ ((startInVideo r / fps r)%float = 1%float -> channels r = 2%float ->
      pad_start res = Some "adelay=1000|1000|1000").
Proof.
  intros H. destruct (builder_fragment r res H) as (_ & tt & _ & _ & _ & Hs).
  assert (Hfill : forall len v (delays : list string),
             new_Array_fill len v = Return delays ->
             exists n : nat,
               option_map Z.to_nat (integer_value len) = Some n
               /\ delays = List.repeat v n).
  { intros len v delays. unfold new_Array_fill.
    destruct (integer_value len) as [z|]; [|discriminate].
    destruct (_ && _); [|discriminate].
    intros [= <-]. exists (Z.to_nat z). split; reflexivity. }
  repeat split.
  - intros Hn. destruct (startInVideo r / fps r =? 0)%float; [reflexivity|].
    destruct Hs as (delays & _ & Hd). congruence.
  - intros He. rewrite He in Hs. exact Hs.
  - intros He. rewrite He in Hs. destruct Hs as (delays & Hf & Hd).
    destruct (Hfill _ _ _ Hf) as (n & Hn & ->). exists n. split; assumption.
  - intros E1 E2. rewrite E1, E2 in Hs. vm_compute in Hs.
    destruct Hs as (delays & [= <-] & Hd). exact Hd.
Qed.

(** The occurrences of [volume=] in the filter string of a fragment whose
    tempo clause holds none. *)
Lemma filter_occurrences (r : Request AssetVolume)
    (res : FilterWithoutPaddingApplied) :
  (forall s, calculateATempo (playbackRate r) = Some s ->
             includes "volume=" s = false) ->
  stringifyFfmpegFilter r = Return (Some res) ->
  let v := ffmpegVolumeExpression (volume r) (fps r) (volumeTrimLeft r)
             (allowAmplificationDuringRender r) in
  occurrences "volume=" (filter res)
  = (if String.eqb (Volume.value v) "1" then 0
     else 1 + occurrences "volume=" (Volume.value v)
          + occurrences "volume=" (Volume.eval v))%nat.
Proof.
  intros Htempo H. cbv zeta.
  destruct (builder_fragment r res H) as (_ & tt & Ett & Hf & _).
  assert (Ht : clause_occurrences (calculateATempo (playbackRate r)) = 0%nat).
  { destruct (calculateATempo (playbackRate r)) as [s|] eqn:Es; [|reflexivity].
    cbn [clause_occurrences]. specialize (Htempo s eq_refl).
    rewrite OccurrenceFacts.includes_occurrences in Htempo.
    apply negb_false_iff, Nat.eqb_eq in Htempo. exact Htempo. }
  rewrite Hf, ClauseFacts.occurrences_kept. unfold filterClauses.
  rewrite !List.map_app, !list_sum_app.
  assert (Htt : list_sum (List.map clause_occurrences (TrimAndTempo.filter tt))
                = 0%nat
                /\ TrimAndTempo.actualTrimLeft tt = volumeTrimLeft r).
  { unfold trimAndSetTempo in Ett. unfold volumeTrimLeft.
    destruct (forSeamlessAacConcatenation r); cbn [negb] in Ett;
      injection Ett as <-;
      cbn [TrimAndTempo.filter TrimAndTempo.actualTrimLeft List.map list_sum
           List.fold_right];
      rewrite Ht;
      match goal with
      | |- context [clause_occurrences (Some ?s)] =>
          rewrite (ClauseFacts.lacking_clause s)
            by exact (ClauseFacts.atrim_clause_lacks_v _ _)
      end;
      split; reflexivity. }
  destruct Htt as [-> ->].
  cbn [List.map list_sum List.fold_right].
  rewrite (ClauseFacts.lacking_clause _
             (ClauseFacts.aformat_clause_lacks_v _)).
  set (v := ffmpegVolumeExpression _ _ _ _).
  assert (Htone :
            clause_occurrences
              match toneFrequency r with
              | Some t =>
                  if truthy_number t && negb (t =? 1)%float
                  then Some ("asetrate=" ++ Number_toString DEFAULT_SAMPLE_RATE
                               ++ "*" ++ Number_toString t
                               ++ ",aresample="
                               ++ Number_toString DEFAULT_SAMPLE_RATE
                               ++ ",atempo=1/" ++ Number_toString t)
                  else None
              | None => None
              end = 0%nat).
  { destruct (toneFrequency r) as [t|]; [|reflexivity].
    destruct (truthy_number t && negb (t =? 1)%float); [|reflexivity].
    apply ClauseFacts.lacking_clause, ClauseFacts.tone_clause_lacks_v. }
  rewrite Htone.
  destruct (String.eqb (Volume.value v) "1"); [reflexivity|].
  cbn [clause_occurrences]. rewrite ClauseFacts.volume_clause_occurrences. lia.
Qed.

Lemma filter_holds_volume_clause (r : Request AssetVolume)
    (res : FilterWithoutPaddingApplied) :
  stringifyFfmpegFilter r = Return (Some res) ->
  let v := ffmpegVolumeExpression (volume r) (fps r) (volumeTrimLeft r)
             (allowAmplificationDuringRender r) in
  Volume.value v <> "1" ->
  includes ("volume=" ++ Volume.value v ++ ":eval=" ++ Volume.eval v)
    (filter res) = true.
Proof.
  intros H. cbv zeta.
  destruct (builder_fragment r res H) as (_ & tt & Ett & Hf & _).
  assert (Ea : TrimAndTempo.actualTrimLeft tt = volumeTrimLeft r).
  { unfold trimAndSetTempo in Ett. unfold volumeTrimLeft.
    destruct (forSeamlessAacConcatenation r); cbn [negb] in Ett;
      injection Ett as <-; reflexivity. }
  rewrite Ea in Hf. set (v := ffmpegVolumeExpression _ _ _ _) in *.
  intros Hne. rewrite Hf.
  apply (StringFacts.includes_app_r _ "[0:a]"), StringFacts.includes_app_l.
  unfold join_nullable. apply ClauseFacts.includes_joined.
  apply (List.in_map (fun c => match c with Some s => s | None => "" end) _
           (Some ("volume=" ++ Volume.value v ++ ":eval=" ++ Volume.eval v))).
  apply List.filter_In. split; [|reflexivity].
  unfold filterClauses. apply in_or_app. right. apply in_or_app. right.
  left. apply String.eqb_neq in Hne. rewrite Hne. reflexivity.
Qed.

(** C8.  For every fragment whose tempo clause holds no [volume=] (the
    clause is the opaque string of a collaborator): the filter string
    contains [volume=] if and only if the multiplier is not the string
    ["1"]; for ["1"] it contains it nowhere; otherwise it contains the
    clause [volume=<value>:eval=<eval>]; and for ["0.5"], with an
    evaluation mode that holds no [volume=] either, it contains [volume=]
    exactly once, at the head of [volume=0.5:eval=<eval>]. *)
Theorem volume_clause_spec (r : Request AssetVolume)
    (res : FilterWithoutPaddingApplied) :
  (forall s, calculateATempo (playbackRate r) = Some s ->
             includes "volume=" s = false) ->
  stringifyFfmpegFilter r = Return (Some res) ->
  let v := ffmpegVolumeExpression (volume r) (fps r) (volumeTrimLeft r)
             (allowAmplificationDuringRender r) in
  (includes "volume=" (filter res) = true <-> Volume.value v <> "1")
  /\ (Volume.value v = "1" -> occurrences "volume=" (filter res) = 0%nat)
  /\ (Volume.value v <> "1" ->
      includes ("volume=" ++ Volume.value v ++ ":eval=" ++ Volume.eval v)
        (filter res) = true)
  /\ (Volume.value v = "0.5" ->
      includes "volume=" (Volume.eval v) = false ->
      occurrences "volume=" (filter res) = 1%nat
      /\ includes ("volume=0.5:eval=" ++ Volume.eval v) (filter res) = true).
Proof.
  intros Htempo H.
  pose proof (filter_occurrences r res Htempo H) as Hocc.
  pose proof (filter_holds_volume_clause r res H) as Hin.
  cbv zeta in *. set (v := ffmpegVolumeExpression _ _ _ _) in *.
  split; [|split; [|split]].
  - rewrite OccurrenceFacts.includes_occurrences, Hocc.
    destruct (String.eqb_spec (Volume.value v) "1") as [E|N].
    + split; [discriminate|]. intros N. exfalso. exact (N E).
    + split; [intros _; exact N|reflexivity].
  - intros E. rewrite Hocc, E. reflexivity.
  - exact Hin.
  - intros E He. split.
    + rewrite OccurrenceFacts.includes_occurrences in He.
      apply negb_false_iff, Nat.eqb_eq in He.
      rewrite Hocc, He, E. reflexivity.
    + assert (N : Volume.value v <> "1") by (rewrite E; discriminate).
      specialize (Hin N). rewrite E in Hin. exact Hin.
Qed.

(** C9.  An [assetDuration] of zero is treated as an unknown one: the guard
    does not fire, the right bound is not clamped, the builder does what it
    does without [assetDuration], and it does not return [null]: it returns
    a fragment when [toneFrequency] is valid and [new Array] accepts
    [channels + 1]. *)
Theorem zero_assetDuration_is_unknown (r : Request AssetVolume) (d : float) :
  assetDuration r = Some d ->
  (d =? 0)%float = true ->
  trimmed_away r = false
  /\ trimRightOrAssetDuration (trimRight r) (assetDuration r) = trimRight r
  /\ stringifyFfmpegFilter r = stringifyFfmpegFilter (with_assetDuration r None)
  /\ stringifyFfmpegFilter r <> Return None
  /\ (tone_rejected r = false ->
      (exists res, stringifyFfmpegFilter r = Return (Some res))
      \/ (exists message,
            stringifyFfmpegFilter r = Throw (RangeError message))).
Proof.
  intros Hd Hz.
  assert (Ht : truthy_number d = false).
  { unfold truthy_number. change (is_zero d) with (d =? 0)%float.
    rewrite Hz. reflexivity. }
  assert (Hg : trimmed_away r = false).
  { unfold trimmed_away. rewrite Hd, Ht. reflexivity. }
  split; [exact Hg|]. split; [rewrite Hd; cbn; rewrite Ht; reflexivity|].
  split; [|split; [apply builder_not_null, Hg|apply builder_past_guards, Hg]].
  unfold stringifyFfmpegFilter, trimAndSetTempo, trimRightOrAssetDuration.
  cbn [with_assetDuration assetDuration toneFrequency playbackRate trimLeft
       trimRight forSeamlessAacConcatenation volume fps startInVideo channels
       allowAmplificationDuringRender chunkLengthInSeconds].
  rewrite Hd, Ht. reflexivity.
Qed.

(** C10.  The guard precedes the validation: with a known, positive
    [assetDuration], [trimLeft >= assetDuration] and a [toneFrequency]
    outside (0, 2], the builder returns [null] and throws nothing. *)
Theorem guard_precedes_validation (r : Request AssetVolume) (d t : float) :
  assetDuration r = Some d ->
  (0 <? d)%float = true ->
  geb (trimLeft r) d = true ->
  toneFrequency r = Some t ->
  outside_tone_range t = true ->
  stringifyFfmpegFilter r = Return None
  /\ stringifyFfmpegFilter r <> Throw tone_error.
Proof.
  intros Hd Hpos Hge _ _.
  assert (E : stringifyFfmpegFilter r = Return None).
  { apply builder_trimmed_away. unfold trimmed_away.
    rewrite Hd, (FloatFacts.ltb_zero_truthy d Hpos), Hge. reflexivity. }
  rewrite E. split; [reflexivity|discriminate].
Qed.

(** X1.  The builder returns [null] exactly when the trim window starts at
    or past the end of an asset of known, non-zero duration. *)
Theorem null_iff_trimmed_away (r : Request AssetVolume) :
  stringifyFfmpegFilter r = Return None <-> trimmed_away r = true.
Proof.
  split; [|apply builder_trimmed_away].
  destruct (trimmed_away r) eqn:E; [reflexivity|].
  intros H. exfalso. exact (builder_not_null r E H).
Qed.

(** The scenario of the specification: ten seconds from the start at
    double speed in default mode are trimmed, then stretched, and last five
    seconds. *)
Theorem default_mode_scenario :
  trimAndSetTempo 2 0 10 false None
  = Return {| TrimAndTempo.filter :=
                [Some "atrim=0us:10000000us"; calculateATempo 2];
              TrimAndTempo.actualTrimLeft := 0;
              TrimAndTempo.audibleDuration := 5 |}.
Proof.
  unfold trimAndSetTempo, trimRightOrAssetDuration. cbn [negb].
  replace (stringifyTrim 0) with "0us" by (vm_compute; reflexivity).
  replace (stringifyTrim 10) with "10000000us" by (vm_compute; reflexivity).
  replace ((10 - 0) / 2)%float with 5%float by (vm_compute; reflexivity).
  reflexivity.
Qed.

End Properties.


(** *** The properties at concrete requests *)

Lemma sample_fragment :
  stringifyFfmpegFilter Sample.request = Return (Some Sample.fragment).
Proof. vm_compute. reflexivity. Qed.

(** C1, the claim as stated fails: from second 1 to second 5 at triple
    speed, seamless mode yields [5/3 - 1/3 = 1.3333333333333335] and default
    mode [(5 - 1)/3 = 1.3333333333333333]. *)
Lemma audibleDuration_modes_disagree :
  (0 <=? 1)%float = true /\ (1 <=? 5)%float = true /\ (0 <? 3)%float = true
  /\ option_map TrimAndTempo.audibleDuration
       (returned (trimAndSetTempo 3 1 5 true None))
     = Some 1.3333333333333335%float
  /\ option_map TrimAndTempo.audibleDuration
       (returned (trimAndSetTempo 3 1 5 false None))
     = Some 1.3333333333333333%float
  /\ 1.3333333333333335%float <> 1.3333333333333333%float.
Proof.
  repeat split; try (vm_compute; reflexivity).
  intros E. apply (f_equal Prim2SF) in E. vm_compute in E. discriminate E.
Qed.

Lemma audibleDuration_by_mode_witness :
  option_map TrimAndTempo.audibleDuration
    (returned (trimAndSetTempo 2 0 10 false (Some 10%float)))
  = Some ((10 - 0) / 2)%float
  /\ option_map TrimAndTempo.audibleDuration
       (returned (trimAndSetTempo 2 0 10 true (Some 10%float)))
     = Some (10 / 2 - 0 / 2)%float
  /\ (0%float = 0%float -> (0 <? 2)%float = true ->
      returned (trimAndSetTempo 2 0 10 true (Some 10%float)) <> None
      /\ option_map TrimAndTempo.audibleDuration
           (returned (trimAndSetTempo 2 0 10 true (Some 10%float)))
         = option_map TrimAndTempo.audibleDuration
             (returned (trimAndSetTempo 2 0 10 false (Some 10%float)))).
Proof.
  apply (audibleDuration_by_mode (collaborators := Sample.collaborators)
           2 0 10 (Some 10%float)).
  intros d [= <-]. reflexivity.
Defined.

(** C2, the claim as stated fails: half a microsecond is below [1e-6]
    seconds and is formatted as ["0.5us"]. *)
Lemma stringifyTrim_half_microsecond :
  (abs 5e-7 <? 0.000001)%float = true /\ stringifyTrim 5e-7 = "0.5us".
Proof. split; vm_compute; reflexivity. Qed.

Lemma stringifyTrim_rounding_artifact_witness :
  stringifyTrim 6e-13 = "0us"
  /\ forall again : float, again = 6e-13%float ->
                           stringifyTrim again = stringifyTrim 6e-13.
Proof.
  apply (stringifyTrim_rounding_artifact 6e-13). vm_compute. reflexivity.
Defined.

(** C3, the claim as stated fails: with [assetDuration = 0] and
    [trimLeft = 0], so that [trimLeft >= assetDuration], the builder returns
    a fragment. *)
Lemma zero_assetDuration_yields_fragment :
  geb 0 0 = true
  /\ stringifyFfmpegFilter (Sample.make 0 10 (Some 0%float) None)
     = Return (Some {|
         filter := "[0:a]aformat=sample_fmts=s32:sample_rates=48000,atrim=0us:10000000us,atempo=2,volume=0.5:eval=once[a0]";
         pad_end := Some "apad=pad_len=96000";
         pad_start := Some "adelay=1000|1000|1000" |}).
Proof. split; vm_compute; reflexivity. Qed.

Lemma no_fragment_past_asset_end_witness :
  stringifyFfmpegFilter (Sample.make 5 10 (Some 3%float) None) = Return None
  /\ forall r' : Request string,
       trimLeft r' = 5%float -> assetDuration r' = Some 3%float ->
       stringifyFfmpegFilter r' = Return None.
Proof.
  apply (no_fragment_past_asset_end (Sample.make 5 10 (Some 3%float) None) 3);
    reflexivity.
Defined.

(** C5, the claim as stated fails: [toneFrequency = 3] lies outside (0, 2],
    yet with [trimLeft = 5] and [assetDuration = 3] the builder returns
    [null] and throws nothing. *)
Lemma tone_unchecked_when_trimmed_away :
  outside_tone_range 3 = true
  /\ stringifyFfmpegFilter (Sample.make 5 10 (Some 3%float) (Some 3%float))
     = Return None.
Proof. split; vm_compute; reflexivity. Qed.

Lemma tone_validation_witness :
  (stringifyFfmpegFilter (Sample.make 0 10 None (Some 3%float))
   = Throw tone_error
   <-> exists t, toneFrequency (Sample.make 0 10 None (Some 3%float)) = Some t
                 /\ outside_tone_range t = true)
  /\ outside_tone_range 3 = true
  /\ outside_tone_range 0 = true
  /\ outside_tone_range 2 = false.
Proof.
  apply (tone_validation (Sample.make 0 10 None (Some 3%float))).
  - reflexivity.
  - intros t [= <-]. reflexivity.
Defined.

Lemma pad_end_spec_witness :
  pad_end Sample.fragment = Some "apad=pad_len=96000".
Proof.
  destruct (pad_end_spec Sample.request Sample.fragment sample_fragment)
    as (tt & Ett & Hgt & _ & _).
  vm_compute in Ett. injection Ett as <-.
  rewrite Hgt; vm_compute; reflexivity.
Defined.

Lemma pad_start_spec_witness :
  pad_start Sample.fragment = Some "adelay=1000|1000|1000".
Proof.
  apply (pad_start_spec Sample.request Sample.fragment sample_fragment);
    reflexivity.
Defined.

Lemma volume_clause_spec_witness :
  (includes "volume=" (filter Sample.fragment) = true <-> "0.5" <> "1")
  /\ occurrences "volume=" (filter Sample.fragment) = 1%nat
  /\ includes "volume=0.5:eval=once" (filter Sample.fragment) = true.
Proof.
  destruct (volume_clause_spec Sample.request Sample.fragment)
    as (Hiff & _ & _ & Hhalf).
  - intros s [= <-]. reflexivity.
  - exact sample_fragment.
  - destruct (Hhalf eq_refl eq_refl) as [Hone Hin].
    split; [exact Hiff|]. split; assumption.
Defined.

Lemma zero_assetDuration_is_unknown_witness :
  stringifyFfmpegFilter (Sample.make 0 10 (Some 0%float) None)
  = stringifyFfmpegFilter
      (with_assetDuration (Sample.make 0 10 (Some 0%float) None) None)
  /\ stringifyFfmpegFilter (Sample.make 0 10 (Some 0%float) None)
     <> Return None.
Proof.
  destruct (zero_assetDuration_is_unknown
              (Sample.make 0 10 (Some 0%float) None) 0)
    as (_ & _ & Hsame & Hnot & _); [reflexivity|reflexivity|].
  split; assumption.
Defined.

Lemma guard_precedes_validation_witness :
  stringifyFfmpegFilter (Sample.make 5 10 (Some 3%float) (Some 3%float))
  = Return None
  /\ stringifyFfmpegFilter (Sample.make 5 10 (Some 3%float) (Some 3%float))
     <> Throw tone_error.
Proof.
  apply (guard_precedes_validation
           (Sample.make 5 10 (Some 3%float) (Some 3%float)) 3 3);
    reflexivity.
Defined.

(** *** Numbers from [1e-6] on print without a negative exponent *)

Module PlainFacts.
Import FloatFacts StringFacts DecimalFacts PrintingFacts.

Lemma minus_free_app (a b : string) :
  minus_free (a ++ b) = minus_free a && minus_free b.
Proof.
  induction a as [|c a IH]; [reflexivity|].
  cbn [append minus_free]. rewrite IH. apply andb_assoc.
Qed.

(** Without a minus sign there is no ["e-"]. *)
Lemma minus_free_no_exponent (s : string) :
  minus_free s = true -> includes "e-" s = false.
Proof.
  induction s as [|c s IH]; [reflexivity|].
  cbn [minus_free includes]. intros H. apply andb_true_iff in H.
  destruct H as [Hc Hs]. rewrite (IH Hs), orb_false_r.
  destruct s as [|c' s].
  - cbn -[ascii_dec]. destruct (ascii_dec "e" c); reflexivity.
  - cbn [minus_free] in Hs. apply andb_true_iff in Hs. destruct Hs as [Hc' _].
    cbn -[ascii_dec]. destruct (ascii_dec "e" c); [|reflexivity].
    destruct (ascii_dec "-" c') as [E|_]; [|reflexivity].
    subst c'. discriminate Hc'.
Qed.

Lemma includes_after_minus (s : string) :
  includes "e-" (String "-" s) = includes "e-" s.
Proof. reflexivity. Qed.

Lemma minus_free_uint (d : Decimal.uint) :
  minus_free (NilEmpty.string_of_uint d) = true.
Proof. induction d; cbn; assumption || reflexivity. Qed.

Lemma minus_free_digits (z : Z) : minus_free (digits z) = true.
Proof.
  unfold digits, NilZero.string_of_uint.
  destruct (N.to_uint (Z.to_N z)) eqn:E; try reflexivity;
    rewrite <- E; apply minus_free_uint.
Qed.

Lemma minus_free_zeros (n : nat) : minus_free (zeros n) = true.
Proof. induction n; [reflexivity|exact IHn]. Qed.

Lemma minus_free_substring (s : string) (n m : nat) :
  minus_free s = true -> minus_free (String.substring n m s) = true.
Proof.
  revert n m. induction s as [|c s IH]; intros n m H.
  - destruct n, m; reflexivity.
  - cbn [minus_free] in H. apply andb_true_iff in H. destruct H as [Hc Hs].
    destruct n as [|n]; [destruct m as [|m]|]; cbn [String.substring minus_free].
    + reflexivity.
    + rewrite Hc. apply IH, Hs.
    + apply IH, Hs.
Qed.

(** Outside exponent notation with a negative exponent, a decimal prints
    without a minus sign. *)
Lemma minus_free_format (d : decimal) :
  (-6 < dec_n d)%Z -> minus_free (format_decimal d) = true.
Proof.
  intros Hn. unfold format_decimal, take, drop.
  destruct ((dec_k d <=? dec_n d)%Z && (dec_n d <=? 21)%Z).
  { rewrite minus_free_app, minus_free_digits, minus_free_zeros. reflexivity. }
  destruct ((0 <? dec_n d)%Z && (dec_n d <=? 21)%Z) eqn:E2.
  { rewrite !minus_free_app, !minus_free_substring by apply minus_free_digits.
    reflexivity. }
  destruct ((-6 <? dec_n d)%Z && (dec_n d <=? 0)%Z) eqn:E3.
  { rewrite !minus_free_app, minus_free_zeros, minus_free_digits. reflexivity. }
  assert (Hs : (dec_n d - 1 <? 0)%Z = false).
  { apply Z.ltb_ge. apply andb_false_iff in E2, E3.
    destruct E2 as [E2|E2], E3 as [E3|E3];
      rewrite ?Z.ltb_ge, ?Z.leb_gt in *; lia. }
  rewrite Hs. destruct (dec_k d =? 1)%Z.
  - rewrite !minus_free_app, !minus_free_digits. reflexivity.
  - rewrite !minus_free_app, !minus_free_substring by apply minus_free_digits.
    rewrite minus_free_digits. reflexivity.
Qed.


Lemma exponent_up_ge (fuel : nat) (j : Z) (x : Q) :
  (j <= exponent_up fuel j x)%Z.
Proof.
  revert j. induction fuel as [|fuel IH]; intros j; cbn [exponent_up]; [lia|].
  destruct (Qltb x (Q10pow j)); [lia|]. specialize (IH (j + 1)%Z). lia.
Qed.

Lemma exponent_down_ge (fuel : nat) (j j0 : Z) (x : Q) :
  (Q10pow (j0 - 1) <= x)%Q -> (j0 <= j)%Z ->
  (j0 <= exponent_down fuel j x)%Z.
Proof.
  intros Hx. revert j. induction fuel as [|fuel IH]; intros j Hj;
    cbn [exponent_down]; [exact Hj|].
  destruct (Qle_bool (Q10pow (j - 1)) x) eqn:E; [exact Hj|].
  apply IH. destruct (Z.eq_dec j j0) as [->|Hne]; [|lia].
  apply Qle_bool_iff in Hx. congruence.
Qed.

Lemma decimal_exponent_large (x : Q) :
  (Q10pow (-6) <= x)%Q -> (-6 < decimal_exponent x)%Z.
Proof.
  intros Hx. unfold decimal_exponent. destruct (Qle_bool 1 x).
  - pose proof (exponent_up_ge 308 1 x). lia.
  - pose proof (exponent_down_ge 324 0 (-5) x Hx). lia.
Qed.

Lemma shortest_decimal_large (m : positive) (e : Z) :
  (Q10pow (-6) <= magnitude m e)%Q ->
  (-6 < dec_n (shortest_decimal m e))%Z.
Proof.
  intros Hx. apply decimal_exponent_large in Hx. unfold shortest_decimal.
  destruct (shortest_from_spec 17 m e (decimal_exponent (magnitude m e)) 1)
    as [_ [Hn|[Hn _]]]; lia.
Qed.

(** A normal binary64 mantissa has exactly 53 bits. *)
Lemma valid_normal_mantissa (s : bool) (m : positive) (e : Z) :
  valid_binary (S754_finite s m e) = true -> (-1074 < e)%Z ->
  (2 ^ 52 <= Zpos m)%Z.
Proof.
  unfold valid_binary, bounded, canonical_mantissa, fexp, SpecFloat.emin.
  intros H He. apply andb_true_iff in H. destruct H as [H _].
  apply Z.eqb_eq in H. rewrite digits2_pos_size in H.
  assert (Hs : Zpos (Pos.size m) = 53%Z) by (unfold prec, emax in H; lia).
  pose proof (Pos.size_le m) as Hm.
  assert (Hp : (2 ^ Zpos (Pos.size m) <= Zpos m~0)%Z).
  { rewrite <- Pos2Z.inj_pow. apply Pos2Z.pos_le_pos, Hm. }
  rewrite Hs in Hp. change (2 ^ 53)%Z with (2 * 2 ^ 52)%Z in Hp.
  rewrite Pos2Z.inj_xO in Hp. lia.
Qed.

(** From the double above the one nearest to [1e-6] on, the value is at
    least [10^(-6)]. *)
Lemma magnitude_large (m : positive) (e : Z) :
  ((-72 < e /\ 2 ^ 52 <= Zpos m)
   \/ (e = -72 /\ 4722366482869645 < Zpos m))%Z ->
  (Q10pow (-6) <= magnitude m e)%Q.
Proof.
  intros [[He Hm]|[-> Hm]]; unfold magnitude.
  - apply Qle_trans with (inject_Z (2 ^ 52) * Q2pow (-71))%Q;
      [discriminate|].
    apply Qle_trans with (inject_Z (2 ^ 52) * Q2pow e)%Q.
    + apply Qmult_le_l; [reflexivity|]. apply Q2pow_le. lia.
    + apply Qmult_le_compat_r; [|apply Qlt_le_weak, Q2pow_pos].
      rewrite <- Zle_Qle. exact Hm.
  - apply Qle_trans with (inject_Z 4722366482869646 * Q2pow (-72))%Q;
      [discriminate|].
    apply Qmult_le_compat_r; [|apply Qlt_le_weak, Q2pow_pos].
    rewrite <- Zle_Qle. lia.
Qed.

Lemma SFltb_abs_finite_false (x : spec_float) (m0 : positive) (e0 : Z) :
  SFltb (SFabs x) (S754_finite false m0 e0) = false ->
  x = S754_nan \/ (exists s, x = S754_infinity s)
  \/ (exists s m e, x = S754_finite s m e
        /\ (e0 < e \/ (e = e0 /\ Zpos m0 <= Zpos m))%Z).
Proof.
  unfold SFltb. destruct x as [s|s| |s m e]; cbn [SFabs SFcompare].
  - intros H. discriminate H.
  - intros _. right. left. eauto.
  - intros _. left. reflexivity.
  - intros H. right. right. exists s, m, e. split; [reflexivity|].
    destruct (Z.compare_spec e e0) as [E|E|E].
    + right. split; [exact E|].
      fold (Pos.compare m m0) in H.
      destruct (Pos.compare_spec m m0) as [C|C|C];
        [lia|discriminate H|lia].
    + discriminate H.
    + left. exact E.
Qed.

Lemma shortest_decimal_micro :
  dec_n (shortest_decimal 4722366482869645 (-72)) = (-5)%Z.
Proof. vm_compute. reflexivity. Qed.

(** A number that is NaN, infinite or of magnitude at least [1e-6] prints
    without ["e-"]. *)
Lemma Number_toString_plain (v : float) :
  (abs v <? 0.000001)%float = false ->
  includes "e-" (Number_toString v ++ "us") = false.
Proof.
  rewrite ltb_spec, abs_spec, Prim2SF_micro. intros H.
  apply SFltb_abs_finite_false in H. unfold Number_toString.
  destruct H as [->|[[s ->]|(s & m & e & E & He)]].
  - reflexivity.
  - destruct s; reflexivity.
  - pose proof (Prim2SF_valid v) as Hv. rewrite E in *.
    assert (Hn : (-6 < dec_n (shortest_decimal m e))%Z).
    { destruct He as [He|[-> Hm]].
      - apply shortest_decimal_large, magnitude_large. left.
        split; [exact He|]. apply (valid_normal_mantissa s m e Hv). lia.
      - destruct (Z.eq_dec (Zpos m) 4722366482869645) as [Em|Hne].
        + injection Em as ->. rewrite shortest_decimal_micro. lia.
        + apply shortest_decimal_large, magnitude_large. right. lia. }
    assert (Hf : minus_free (format_decimal (shortest_decimal m e) ++ "us")
                 = true).
    { rewrite minus_free_app, (minus_free_format _ Hn). reflexivity. }
    destruct s; cbn [append]; [rewrite includes_after_minus|];
      apply minus_free_no_exponent, Hf.
Qed.

End PlainFacts.

(** X3.  [stringifyTrim] zeroes exactly the durations whose value in
    microseconds has magnitude below [1e-6]; every other one, NaN and the
    infinities included, is the value as JavaScript prints it, then [us]. *)
Theorem stringifyTrim_cases (trim : float) :
  stringifyTrim trim
  = if (abs (trim * 1000000) <? 0.000001)%float then "0us"
    else Number_toString (trim * 1000000) ++ "us".
Proof.
  destruct (abs (trim * 1000000) <? 0.000001)%float eqn:E.
  - apply PrintingFacts.stringifyTrim_small, E.
  - unfold stringifyTrim. rewrite (PlainFacts.Number_toString_plain _ E).
    reflexivity.
Qed.

(** *** More on binary64 comparisons, and NaN *)

Module OrderFacts.
Import FloatFacts.

Lemma leb_refl (a : float) : is_nan a = false -> (a <=? a)%float = true.
Proof.
  rewrite is_nan_false, leb_spec. unfold SFleb. intros H.
  rewrite (SFcompare_refl _ H). reflexivity.
Qed.

Lemma ltb_leb (a b : float) :
  (a <? b)%float = true -> (a <=? b)%float = true.
Proof.
  rewrite ltb_spec, leb_spec. unfold SFltb, SFleb.
  destruct (SFcompare _ _) as [[| |]|]; congruence.
Qed.

Lemma not_ltb_leb (a b : float) :
  is_nan a = false -> is_nan b = false ->
  (a <? b)%float = false -> (b <=? a)%float = true.
Proof.
  intros Ha Hb H. rewrite (ltb_negb_leb a b Ha Hb) in H.
  apply negb_false_iff, H.
Qed.

Lemma truthy_not_nan (d : float) : truthy_number d = true -> is_nan d = false.
Proof.
  unfold truthy_number. intros H. apply negb_true_iff, orb_false_iff in H.
  apply H.
Qed.

Lemma is_zero_leb (t : float) : is_zero t = true -> (t <=? 0)%float = true.
Proof.
  intros H. apply is_zero_spec in H. destruct H as [s H].
  rewrite leb_spec, H. reflexivity.
Qed.

Lemma nan_eqb (x y : float) : is_nan x = true -> (x =? y)%float = false.
Proof.
  intros H. apply is_nan_spec in H. rewrite FloatAxioms.eqb_spec, H.
  reflexivity.
Qed.

Lemma nan_ltb_r (x y : float) : is_nan x = true -> (y <? x)%float = false.
Proof.
  intros H. apply is_nan_spec in H. rewrite ltb_spec, H. unfold SFltb.
  destruct (Prim2SF y); reflexivity.
Qed.

Lemma nan_sub_r (x y : float) : is_nan y = true -> is_nan (x - y) = true.
Proof.
  intros H. apply is_nan_spec in H. apply is_nan_spec.
  rewrite sub_spec, H. unfold SF64sub. destruct (Prim2SF x); reflexivity.
Qed.

Lemma nan_mul_l (x y : float) : is_nan x = true -> is_nan (x * y) = true.
Proof.
  intros H. apply is_nan_spec in H. apply is_nan_spec.
  rewrite mul_spec, H. reflexivity.
Qed.

Lemma toFixed0_nan (x : float) : is_nan x = true -> toFixed0 x = "NaN".
Proof.
  intros H. apply is_nan_spec in H. unfold toFixed0, Number_toString.
  rewrite H. reflexivity.
Qed.

(** [Math.min] of a number and a non-zero bound is one of the two, and at
    most each of them. *)
Lemma Math_min_bounds (a b : float) :
  is_nan a = false -> truthy_number b = true ->
  (Math_min a b <=? a)%float = true
  /\ (Math_min a b <=? b)%float = true
  /\ (Math_min a b = a \/ Math_min a b = b)
  /\ ((b <? a)%float = true -> Math_min a b = b).
Proof.
  intros Ha Htb. pose proof (truthy_not_nan b Htb) as Hb.
  unfold Math_min. rewrite Ha, Hb. cbn [orb].
  destruct (a <? b)%float eqn:Hab.
  - split; [apply leb_refl, Ha|]. split; [apply ltb_leb, Hab|].
    split; [left; reflexivity|].
    rewrite (leb_ltb_false a b (ltb_leb a b Hab)). discriminate.
  - destruct (b <? a)%float eqn:Hba.
    + split; [apply ltb_leb, Hba|]. split; [apply leb_refl, Hb|].
      split; [right; reflexivity|reflexivity].
    + pose proof (not_ltb_leb a b Ha Hb Hab) as Hle1.
      pose proof (not_ltb_leb b a Hb Ha Hba) as Hle2.
      destruct (is_zero a && get_sign b).
      * split; [exact Hle1|]. split; [apply leb_refl, Hb|].
        split; [right; reflexivity|discriminate].
      * split; [apply leb_refl, Ha|]. split; [exact Hle2|].
        split; [left; reflexivity|discriminate].
Qed.

End OrderFacts.

Module FiniteFacts.
Import FloatFacts.

Lemma is_finite_cases (x : float) :
  is_finite x = true ->
  (exists s, Prim2SF x = S754_zero s)
  \/ (exists s m e, Prim2SF x = S754_finite s m e).
Proof.
  unfold is_finite, is_infinity. intros H.
  apply negb_true_iff, orb_false_iff in H. destruct H as [Hn Hi].
  apply is_nan_false in Hn.
  rewrite FloatAxioms.eqb_spec, abs_spec in Hi.
  change (Prim2SF infinity) with (S754_infinity false) in Hi.
  destruct (Prim2SF x) as [s|s| |s m e]; eauto.
  - discriminate Hi.
  - congruence.
Qed.

(** A finite number minus itself is [+0]. *)
Lemma sub_diag (x : float) : is_finite x = true -> (x - x)%float = 0%float.
Proof.
  intros H. apply Prim2SF_inj. rewrite sub_spec.
  change (Prim2SF 0) with (S754_zero false). unfold SF64sub.
  destruct (is_finite_cases x H) as [[s ->]|(s & m & e & ->)].
  - destruct s; reflexivity.
  - cbn [SFsub]. rewrite Z.sub_diag. reflexivity.
Qed.

End FiniteFacts.

(** *** Further properties of the builder *)

Section MoreProperties.

Context {AssetVolume : Type} {collaborators : Collaborators AssetVolume}.

(** X4.  A known, non-zero [assetDuration] bounds the right end of the trim
    window: the bound the composer uses is at most [assetDuration] and at
    most [trimRight], it is [assetDuration] when [trimRight] lies beyond
    it, and default mode then lasts
    [(assetDuration - trimLeft) / playbackRate]. *)
Theorem trim_bound_within_asset (pr tl tr d : float) :
  truthy_number d = true ->
  is_nan tr = false ->
  (trimRightOrAssetDuration tr (Some d) <=? d)%float = true
  /\ (trimRightOrAssetDuration tr (Some d) <=? tr)%float = true
  /\ ((d <? tr)%float = true ->
      trimRightOrAssetDuration tr (Some d) = d
      /\ option_map TrimAndTempo.audibleDuration
           (returned (trimAndSetTempo pr tl tr false (Some d)))
         = Some ((d - tl) / pr)%float).
Proof.
  intros Hd Htr. unfold trimAndSetTempo, trimRightOrAssetDuration.
  rewrite Hd.
  destruct (OrderFacts.Math_min_bounds tr d Htr Hd) as (H1 & H2 & _ & H3).
  split; [exact H2|]. split; [exact H1|].
  intros Hlt. rewrite (H3 Hlt). split; reflexivity.
Qed.

Lemma filter_last_stage (first : option string)
    (stages : list (option string)) (vol tone : option string) :
  List.filter truthy ([first] ++ stages ++ [vol; tone])%list
  = (List.filter truthy ([first] ++ stages ++ [vol; None])
     ++ List.filter truthy [tone])%list.
Proof.
  rewrite !List.filter_app, <- !List.app_assoc. f_equal. f_equal.
  cbn [List.filter truthy]. destruct (truthy vol); cbn [app];
    rewrite ?List.app_nil_r; reflexivity.
Qed.

Lemma filterClauses_tone (stages : list (option string)) (v : Volume.t)
    (tone : option float) :
  List.filter truthy (filterClauses stages v tone)
  = (List.filter truthy (filterClauses stages v None)
     ++ match tone with
        | Some t =>
            if truthy_number t && negb (t =? 1)%float
            then [Some (tone_clause DEFAULT_SAMPLE_RATE t)]
            else []
        | None => []
        end)%list.
Proof.
  unfold filterClauses. rewrite filter_last_stage. f_equal.
  destruct tone as [t|]; [|reflexivity].
  destruct (truthy_number t && negb (t =? 1)%float); reflexivity.
Qed.

(** A validated tone factor is truthy unless it is NaN. *)
Lemma validated_tone_truthy (t : float) :
  ((t <=? 0)%float || gtb t 2) = false ->
  truthy_number t && negb (t =? 1)%float
  = negb (is_nan t || (t =? 1)%float).
Proof.
  intros H. apply orb_false_iff in H. destruct H as [H _].
  unfold truthy_number. destruct (is_zero t) eqn:Z.
  - rewrite (OrderFacts.is_zero_leb t Z) in H. discriminate H.
  - cbn [orb]. destruct (is_nan t), (t =? 1)%float; reflexivity.
Qed.

(** X6.  [toneFrequency] appends one clause and touches nothing else: a
    fragment is the fragment of the same request without [toneFrequency],
    with the same pads, and with the tone clause as last clause unless the
    factor is [1] or NaN. *)
Theorem tone_stage_appended (r : Request AssetVolume)
    (res : FilterWithoutPaddingApplied) (t : float) :
  stringifyFfmpegFilter r = Return (Some res) ->
  toneFrequency r = Some t ->
  exists front res0,
    stringifyFfmpegFilter (with_toneFrequency r None) = Return (Some res0)
    /\ filter res0 = "[0:a]" ++ join_nullable "," front ++ "[a0]"
    /\ filter res
       = "[0:a]"
         ++ join_nullable ","
              (front
               ++ (if is_nan t || (t =? 1)%float then []
                   else [Some (tone_clause DEFAULT_SAMPLE_RATE t)]))%list
         ++ "[a0]"
    /\ pad_end res0 = pad_end res
    /\ pad_start res0 = pad_start res.
Proof.
  unfold stringifyFfmpegFilter. cbn [with_toneFrequency assetDuration
    trimLeft toneFrequency startInVideo fps playbackRate trimRight
    forSeamlessAacConcatenation volume allowAmplificationDuringRender
    chunkLengthInSeconds channels].
  intros H Ht. rewrite Ht in H.
  destruct (match assetDuration r with Some _ => _ | None => _ end);
    [discriminate H|].
  destruct ((t <=? 0)%float || gtb t 2) eqn:Hv; [discriminate H|].
  destruct (trimAndSetTempo_returns (playbackRate r) (trimLeft r) (trimRight r)
              (forSeamlessAacConcatenation r) (assetDuration r)) as [tt Ett].
  rewrite Ett in *. cbn [bind] in *.
  rewrite filterClauses_tone, (validated_tone_truthy t Hv) in H.
  destruct (if (startInVideo r / fps r =? 0)%float then _ else _)
    as [ps|e]; cbn [bind] in *; [|discriminate H].
  injection H as <-. do 2 eexists. cbn [filter pad_end pad_start].
  split; [reflexivity|]. split; [reflexivity|].
  split; [|split; reflexivity].
  destruct (is_nan t || (t =? 1)%float); reflexivity.
Qed.

(** X7.  The clauses of a fragment: none is empty, the first is the format
    conversion, the trim clause is among them (over the bounds of the
    mode), and there are between two and five. *)
Theorem kept_clauses_spec (r : Request AssetVolume)
    (res : FilterWithoutPaddingApplied) :
  stringifyFfmpegFilter r = Return (Some res) ->
  exists clauses,
    filter res = "[0:a]" ++ join_nullable "," clauses ++ "[a0]"
    /\ (forall c, In c clauses -> exists s, c = Some s /\ s <> "")
    /\ List.hd_error clauses
       = Some (Some ("aformat=sample_fmts=s32:sample_rates="
                       ++ Number_toString DEFAULT_SAMPLE_RATE))
    /\ In (Some
             (let bound :=
                trimRightOrAssetDuration (trimRight r) (assetDuration r) in
              if forSeamlessAacConcatenation r
              then "atrim=" ++ stringifyTrim (trimLeft r / playbackRate r)%float
                     ++ ":" ++ stringifyTrim (bound / playbackRate r)%float
              else "atrim=" ++ stringifyTrim (trimLeft r)
                     ++ ":" ++ stringifyTrim bound))
          clauses
    /\ (2 <= List.length clauses <= 5)%nat.
Proof.
  intros H. destruct (builder_fragment r res H) as (_ & tt & Ett & Hf & _).
  assert (Hstages :
            List.length (TrimAndTempo.filter tt) = 2%nat
            /\ In (Some
                     (let bound :=
                        trimRightOrAssetDuration (trimRight r)
                          (assetDuration r) in
                      if forSeamlessAacConcatenation r
                      then "atrim="
                             ++ stringifyTrim (trimLeft r / playbackRate r)%float
                             ++ ":" ++ stringifyTrim (bound / playbackRate r)%float
                      else "atrim=" ++ stringifyTrim (trimLeft r)
                             ++ ":" ++ stringifyTrim bound))
                  (TrimAndTempo.filter tt)).
  { unfold trimAndSetTempo in Ett. cbv zeta.
    destruct (forSeamlessAacConcatenation r); cbn in Ett;
      injection Ett as <-; cbn [TrimAndTempo.filter]; split;
      [reflexivity|right; left; reflexivity
      |reflexivity|left; reflexivity]. }
  destruct Hstages as [Hlen Hin].
  unfold filterClauses in Hf.
  cbn [app List.filter truthy truthy_string append] in Hf.
  match type of Hf with
  | context [List.filter truthy (TrimAndTempo.filter tt ++ ?l)%list] =>
      set (tail := (TrimAndTempo.filter tt ++ l)%list) in Hf;
      assert (Htail : List.length tail = 4%nat)
        by (unfold tail; rewrite List.length_app, Hlen; reflexivity)
  end.
  assert (Hk : In (Some
                     (let bound :=
                        trimRightOrAssetDuration (trimRight r)
                          (assetDuration r) in
                      if forSeamlessAacConcatenation r
                      then "atrim="
                             ++ stringifyTrim (trimLeft r / playbackRate r)%float
                             ++ ":" ++ stringifyTrim (bound / playbackRate r)%float
                      else "atrim=" ++ stringifyTrim (trimLeft r)
                             ++ ":" ++ stringifyTrim bound))
                  (List.filter truthy tail)).
  { apply List.filter_In. split.
    - unfold tail. apply in_or_app. left. exact Hin.
    - cbv zeta. destruct (forSeamlessAacConcatenation r); reflexivity. }
  eexists. split; [exact Hf|]. split.
  { intros c [<-|Hc]; [eexists; split; [reflexivity|discriminate]|].
    apply List.filter_In in Hc. destruct Hc as [_ Hc].
    destruct c as [s|]; [|discriminate Hc]. exists s. split; [reflexivity|].
    intros ->. discriminate Hc. }
  split; [reflexivity|]. split; [right; exact Hk|].
  cbn [List.length]. pose proof (List.filter_length_le truthy tail) as Hle.
  destruct (List.filter truthy tail); [destruct Hk|].
  cbn [List.length] in *. lia.
Qed.

(** X8.  A start offset that is NaN (as [0 / 0] is) goes through
    unchecked: the fragment has no end pad and delays every channel by
    [NaN]. *)
Theorem nan_start_offset (r : Request AssetVolume)
    (res : FilterWithoutPaddingApplied) :
  stringifyFfmpegFilter r = Return (Some res) ->
  is_nan (startInVideo r / fps r) = true ->
  pad_end res = None
  /\ exists n : nat,
       option_map Z.to_nat (integer_value (channels r + 1)%float) = Some n
       /\ pad_start res = Some ("adelay=" ++ join "|" (List.repeat "NaN" n)).
Proof.
  intros H Hnan.
  destruct (builder_fragment r res H) as (_ & tt & _ & _ & Hp & Hs).
  cbv zeta in Hp. split.
  - rewrite Hp. unfold gtb.
    rewrite OrderFacts.nan_ltb_r; [reflexivity|].
    apply OrderFacts.nan_sub_r, Hnan.
  - rewrite (OrderFacts.nan_eqb _ 0 Hnan) in Hs.
    destruct Hs as (delays & Hf & Hd). unfold new_Array_fill in Hf.
    rewrite (OrderFacts.toFixed0_nan _ (OrderFacts.nan_mul_l _ 1000 Hnan))
      in Hf.
    destruct (integer_value (channels r + 1)%float) as [z|];
      [|discriminate Hf].
    destruct (_ && _); [|discriminate Hf].
    injection Hf as <-. exists (Z.to_nat z). split; [reflexivity|exact Hd].
Qed.

(** X9.  The pads of two fragments: with the same [startInVideo] and [fps],
    the start pads agree once [channels] agree, and the end pads agree once
    the trim window, the rate, the asset duration, the mode and the chunk
    length agree; volume and tone play no part. *)
Theorem pads_frame (r1 r2 : Request AssetVolume)
    (res1 res2 : FilterWithoutPaddingApplied) :
  stringifyFfmpegFilter r1 = Return (Some res1) ->
  stringifyFfmpegFilter r2 = Return (Some res2) ->
  startInVideo r1 = startInVideo r2 ->
  fps r1 = fps r2 ->
  (channels r1 = channels r2 -> pad_start res1 = pad_start res2)
  /\ (trimLeft r1 = trimLeft r2 -> trimRight r1 = trimRight r2 ->
      playbackRate r1 = playbackRate r2 ->
      assetDuration r1 = assetDuration r2 ->
      forSeamlessAacConcatenation r1 = forSeamlessAacConcatenation r2 ->
      chunkLengthInSeconds r1 = chunkLengthInSeconds r2 ->
      pad_end res1 = pad_end res2).
Proof.
  intros H1 H2 Es Ef.
  destruct (builder_fragment r1 res1 H1) as (_ & tt1 & Ett1 & _ & Hp1 & Hs1).
  destruct (builder_fragment r2 res2 H2) as (_ & tt2 & Ett2 & _ & Hp2 & Hs2).
  rewrite Es, Ef in *. split.
  - intros Ec. rewrite Ec in Hs1.
    destruct (startInVideo r2 / fps r2 =? 0)%float; [congruence|].
    destruct Hs1 as (d1 & Hf1 & ->), Hs2 as (d2 & Hf2 & ->). congruence.
  - intros El Er Epr Ead Em Ech.
    rewrite El, Er, Epr, Ead, Em, Ett2 in Ett1. injection Ett1 as ->.
    rewrite Hp1, Hp2, Ech. reflexivity.
Qed.

(** X10.  An empty trim window is silent: in default mode, with
    [trimRight = trimLeft] finite and a positive rate, the audible duration
    is zero and the end pad covers what is left of the chunk after the start
    offset. *)
Theorem empty_window_is_silent (r : Request AssetVolume)
    (res : FilterWithoutPaddingApplied) :
  stringifyFfmpegFilter r = Return (Some res) ->
  forSeamlessAacConcatenation r = false ->
  trimRight r = trimLeft r ->
  is_finite (trimLeft r) = true ->
  (0 <? playbackRate r)%float = true ->
  option_map TrimAndTempo.audibleDuration
    (returned (trimAndSetTempo (playbackRate r) (trimLeft r) (trimRight r)
                 false (assetDuration r))) = Some 0%float
  /\ pad_end res
     = (let rest := (chunkLengthInSeconds r - startInVideo r / fps r)%float in
        if gtb rest 0.0000001
        then Some ("apad=pad_len="
                     ++ Number_toString
                          (Math_round (rest * DEFAULT_SAMPLE_RATE)%float))
        else None).
Proof.
  intros H Hm Eq Hfin Hpr.
  destruct (builder_fragment r res H) as (Hg & tt & Ett & _ & Hp & _).
  assert (Hn : is_nan (trimLeft r) = false).
  { unfold is_finite in Hfin. apply negb_true_iff, orb_false_iff in Hfin.
    apply Hfin. }
  assert (Hb : trimRightOrAssetDuration (trimRight r) (assetDuration r)
               = trimLeft r).
  { unfold trimRightOrAssetDuration, trimmed_away in *. rewrite Eq.
    destruct (assetDuration r) as [d|]; [|reflexivity].
    destruct (truthy_number d) eqn:Ht; [|reflexivity].
    cbn [andb] in Hg. unfold geb in Hg.
    apply FloatFacts.Math_min_le; [|exact Ht].
    apply OrderFacts.ltb_leb.
    rewrite (FloatFacts.ltb_negb_leb (trimLeft r) d Hn
               (OrderFacts.truthy_not_nan d Ht)), Hg.
    reflexivity. }
  assert (Ha : TrimAndTempo.audibleDuration tt = 0%float).
  { rewrite Hm in Ett. unfold trimAndSetTempo in Ett. cbn in Ett.
    injection Ett as <-. cbn [TrimAndTempo.audibleDuration].
    rewrite Hb, (FiniteFacts.sub_diag _ Hfin).
    apply FloatFacts.div_zero_l, Hpr. }
  split.
  - rewrite Hm in Ett. rewrite Ett. cbn. rewrite Ha. reflexivity.
  - rewrite Hp, Ha, FloatFacts.sub_zero_r. reflexivity.
Qed.



(** X12.  A tone below [1e-6] passes the validation and is printed as it
    is: the filter string then holds the tone clause with exponent
    notation with a negative exponent, which [stringifyTrim] removes from
    the trim bounds only. *)
Theorem small_tone_prints_exponent (r : Request AssetVolume)
    (res : FilterWithoutPaddingApplied) (t : float) :
  stringifyFfmpegFilter r = Return (Some res) ->
  toneFrequency r = Some t ->
  (t <? 0.000001)%float = true ->
  includes (tone_clause DEFAULT_SAMPLE_RATE t) (filter res) = true
  /\ includes "e-" (Number_toString t) = true
  /\ includes "e-" (filter res) = true.
Proof.
  intros H Ht Hsmall.
  destruct (builder_fragment r res H) as (Hg & tt & _ & Hf & _).
  assert (Hv : ((t <=? 0)%float || gtb t 2) = false).
  { destruct (tone_rejected r) eqn:Hr.
    - rewrite (builder_tone_rejected r Hg Hr) in H. discriminate H.
    - unfold tone_rejected in Hr. rewrite Ht in Hr. exact Hr. }
  assert (Habs : (abs t <? 0.000001)%float = true).
  { apply orb_false_iff in Hv. apply ToneFacts.positive_abs;
      [apply Hv|exact Hsmall]. }
  assert (Hz : is_zero t = false).
  { destruct (is_zero t) eqn:Z; [|reflexivity].
    apply orb_false_iff in Hv. destruct Hv as [Hv _].
    rewrite (OrderFacts.is_zero_leb t Z) in Hv. discriminate Hv. }
  pose proof (PrintingFacts.Number_toString_small t Habs Hz) as He.
  rewrite filterClauses_tone, Ht, (validated_tone_truthy t Hv),
    (ToneFacts.small_not_nan t Habs), (ToneFacts.small_not_one t Habs) in Hf.
  cbn [orb negb] in Hf.
  assert (Hin : In (tone_clause DEFAULT_SAMPLE_RATE t)
                  (List.map (fun v => match v with Some s => s | None => "" end)
                     (List.filter truthy
                        (filterClauses (TrimAndTempo.filter tt)
                           (ffmpegVolumeExpression (volume r) (fps r)
                              (TrimAndTempo.actualTrimLeft tt)
                              (allowAmplificationDuringRender r)) None)
                      ++ [Some (tone_clause DEFAULT_SAMPLE_RATE t)])%list)).
  { rewrite List.map_app. apply in_or_app. right. left. reflexivity. }
  assert (Hc : includes "e-" (tone_clause DEFAULT_SAMPLE_RATE t) = true).
  { unfold tone_clause.
    apply (StringFacts.includes_app_r _ "asetrate=").
    apply (StringFacts.includes_app_r _ (Number_toString DEFAULT_SAMPLE_RATE)).
    apply (StringFacts.includes_app_r _ "*").
    apply StringFacts.includes_app_l, He. }
  rewrite Hf. unfold join_nullable. split; [|split; [exact He|]].
  - apply (StringFacts.includes_app_r _ "[0:a]"), StringFacts.includes_app_l.
    apply ClauseFacts.includes_joined, Hin.
  - apply (StringFacts.includes_app_r _ "[0:a]"), StringFacts.includes_app_l.
    apply (ClauseFacts.includes_in_joined _ _ _ Hin Hc).
Qed.

End MoreProperties.

(** *** When a collaborator throws *)

Section ThrowingProperties.

Context {AssetVolume : Type}.
Context {throwing : Throwing.Collaborators AssetVolume}.

(** X5.  The outcomes of the builder, in the order they are decided:
    [null] when the asset is trimmed away; else the validation error for a
    rejected [toneFrequency]; else what [calculateATempo] throws; else what
    [ffmpegVolumeExpression] throws; else a fragment when the start offset
    is zero or [new Array] accepts [channels + 1]; else a [RangeError].  The
    builder adds no other error of its own, and it never looks at
    [channels] when the start offset is zero. *)
Theorem builder_outcomes (r : Request AssetVolume) :
  if trimmed_away r then Throwing.stringifyFfmpegFilter r = Return None
  else if tone_rejected r
  then Throwing.stringifyFfmpegFilter r = Throw tone_error
  else
    match Throwing.calculateATempo (playbackRate r) with
    | Throw e => Throwing.stringifyFfmpegFilter r = Throw e
    | Return _ =>
        match Throwing.ffmpegVolumeExpression (volume r) (fps r)
                (volumeTrimLeft r) (allowAmplificationDuringRender r) with
        | Throw e => Throwing.stringifyFfmpegFilter r = Throw e
        | Return _ =>
            if (startInVideo r / fps r =? 0)%float
               || array_length_ok (channels r + 1)%float
            then exists res,
                   Throwing.stringifyFfmpegFilter r = Return (Some res)
            else Throwing.stringifyFfmpegFilter r
                 = Throw (RangeError "Invalid array length")
        end
    end.
Proof.
  unfold Throwing.stringifyFfmpegFilter, trimmed_away, tone_rejected,
    volumeTrimLeft.
  destruct (match assetDuration r with Some _ => _ | None => _ end);
    [reflexivity|].
  destruct (match toneFrequency r with Some _ => _ | None => _ end);
    [reflexivity|].
  unfold Throwing.trimAndSetTempo.
  destruct (forSeamlessAacConcatenation r); cbn [negb];
    (destruct (Throwing.calculateATempo (playbackRate r)) as [tempo|e];
     cbn [bind TrimAndTempo.actualTrimLeft]; [|reflexivity]);
    (destruct (Throwing.ffmpegVolumeExpression _ _ _ _) as [v|e];
     cbn [bind]; [|reflexivity]);
    (destruct (startInVideo r / fps r =? 0)%float; cbn [bind orb]; [eauto|]);
    unfold array_length_ok, new_Array_fill;
    (destruct (integer_value (channels r + 1)%float) as [z|];
     [destruct (_ && _)|]; cbn [bind]; eauto).
Qed.

End ThrowingProperties.

Section Agreement.

Context {AssetVolume : Type}.
Context {throwing : Throwing.Collaborators AssetVolume}.
Context {collaborators : Collaborators AssetVolume}.

(** When the two calls return, the builder does what it does over
    collaborators that are functions. *)
Lemma returning_collaborators (r : Request AssetVolume) :
  Throwing.DEFAULT_SAMPLE_RATE = DEFAULT_SAMPLE_RATE ->
  Throwing.calculateATempo (playbackRate r)
  = Return (calculateATempo (playbackRate r)) ->
  Throwing.ffmpegVolumeExpression (volume r) (fps r) (volumeTrimLeft r)
    (allowAmplificationDuringRender r)
  = Return (ffmpegVolumeExpression (volume r) (fps r) (volumeTrimLeft r)
              (allowAmplificationDuringRender r)) ->
  Throwing.stringifyFfmpegFilter r = stringifyFfmpegFilter r.
Proof.
  intros Hrate Htempo Hvolume.
  unfold Throwing.stringifyFfmpegFilter, stringifyFfmpegFilter,
    Throwing.trimAndSetTempo, trimAndSetTempo, Throwing.filterClauses,
    filterClauses, volumeTrimLeft in *.
  rewrite Htempo, Hrate.
  destruct (forSeamlessAacConcatenation r); cbn [negb bind
    TrimAndTempo.actualTrimLeft] in *; rewrite Hvolume; reflexivity.
Qed.

End Agreement.

(** *** The wrapper *)

Section WrapperProperties.

Import SelectComposition.

Context {Props Env Browser Executable Chromium LogHandler Server VideoConfig
           : Type}.
Variable emptyProps : Props.
Variable emptyEnv : Env.
Variable emptyChromiumOptions : Chromium.
Variable DEFAULT_TIMEOUT : float.
Variable serializeJSONWithDate : Props -> string.
Variable internalSelectComposition :
  Config.t Env Browser Executable Chromium LogHandler Server ->
  completion (InternalReturnType VideoConfig).

(** X11.  [selectComposition] does not pass the requested log level on:
    whichever level is given, [internalSelectComposition] is called with
    ['verbose'], so any two levels give the same call and the same
    result.  Without a level, [verbose: true] gives ['verbose'] and anything
    else ['info']. *)
Theorem requested_logLevel_is_ignored
    (options : Options.t Props Env Browser Executable Chromium LogHandler)
    (level other : string) :
  level <> "" -> other <> "" ->
  Config.logLevel
    (internalConfig (Server := Server) emptyProps emptyEnv emptyChromiumOptions
       DEFAULT_TIMEOUT serializeJSONWithDate
       (with_logLevel options (Some level))) = "verbose"
  /\ selectComposition emptyProps emptyEnv emptyChromiumOptions DEFAULT_TIMEOUT
       serializeJSONWithDate internalSelectComposition
       (with_logLevel options (Some level))
     = selectComposition emptyProps emptyEnv emptyChromiumOptions
         DEFAULT_TIMEOUT serializeJSONWithDate internalSelectComposition
         (with_logLevel options (Some other))
  /\ Config.logLevel
       (internalConfig (Server := Server) emptyProps emptyEnv
          emptyChromiumOptions DEFAULT_TIMEOUT serializeJSONWithDate
          (with_logLevel options None))
     = match Options.verbose options with
       | Some true => "verbose"
       | _ => "info"
       end.
Proof.
  intros Hl Ho.
  assert (T : forall s : string, s <> "" -> truthy_string s = true).
  { intros [|c s] Hs; [contradiction|reflexivity]. }
  unfold selectComposition, internalConfig. cbn.
  rewrite (T level Hl), (T other Ho). repeat split.
  destruct (Options.verbose options) as [[|]|]; reflexivity.
Qed.

End WrapperProperties.

(** *** The further properties at concrete requests *)

Lemma zero_fps_fragment_built :
  stringifyFfmpegFilter MoreSamples.zero_fps_request
  = Return (Some MoreSamples.zero_fps_fragment).
Proof. vm_compute. reflexivity. Qed.

Lemma toneless_fragment_built :
  stringifyFfmpegFilter (Sample.make 0 10 None None)
  = Return (Some MoreSamples.toneless_fragment).
Proof. vm_compute. reflexivity. Qed.

Lemma trim_bound_within_asset_witness :
  (trimRightOrAssetDuration 10 (Some 3%float) <=? 3)%float = true
  /\ (trimRightOrAssetDuration 10 (Some 3%float) <=? 10)%float = true
  /\ ((3 <? 10)%float = true ->
      trimRightOrAssetDuration 10 (Some 3%float) = 3%float
      /\ option_map TrimAndTempo.audibleDuration
           (returned (trimAndSetTempo 2 0 10 false (Some 3%float)))
         = Some ((3 - 0) / 2)%float).
Proof.
  apply (trim_bound_within_asset (collaborators := Sample.collaborators)
           2 0 10 3); reflexivity.
Defined.

Lemma tone_stage_appended_witness :
  exists front res0,
    stringifyFfmpegFilter (with_toneFrequency Sample.request None)
    = Return (Some res0)
    /\ filter res0 = "[0:a]" ++ join_nullable "," front ++ "[a0]"
    /\ filter Sample.fragment
       = "[0:a]"
         ++ join_nullable ","
              (front
               ++ (if is_nan 2 || (2 =? 1)%float then []
                   else [Some (tone_clause DEFAULT_SAMPLE_RATE 2)]))%list
         ++ "[a0]"
    /\ pad_end res0 = pad_end Sample.fragment
    /\ pad_start res0 = pad_start Sample.fragment.
Proof.
  apply (tone_stage_appended Sample.request Sample.fragment 2 sample_fragment).
  reflexivity.
Defined.

Lemma kept_clauses_spec_witness :
  exists clauses,
    filter Sample.fragment = "[0:a]" ++ join_nullable "," clauses ++ "[a0]"
    /\ (forall c, In c clauses -> exists s, c = Some s /\ s <> "")
    /\ List.hd_error clauses
       = Some (Some "aformat=sample_fmts=s32:sample_rates=48000")
    /\ In (Some "atrim=0us:10000000us") clauses
    /\ (2 <= List.length clauses <= 5)%nat.
Proof.
  destruct (kept_clauses_spec Sample.request Sample.fragment sample_fragment)
    as (clauses & Hf & Hne & Hhd & Hin & Hlen).
  exists clauses. split; [exact Hf|]. split; [exact Hne|].
  split; [exact Hhd|]. split; [exact Hin|exact Hlen].
Defined.

Lemma nan_start_offset_witness :
  pad_end MoreSamples.zero_fps_fragment = None
  /\ exists n : nat,
       option_map Z.to_nat (integer_value (2 + 1)%float) = Some n
       /\ pad_start MoreSamples.zero_fps_fragment
          = Some ("adelay=" ++ join "|" (List.repeat "NaN" n)).
Proof.
  apply (nan_start_offset MoreSamples.zero_fps_request
           MoreSamples.zero_fps_fragment zero_fps_fragment_built).
  reflexivity.
Defined.

Lemma pads_frame_witness :
  pad_start Sample.fragment = pad_start MoreSamples.toneless_fragment
  /\ pad_end Sample.fragment = pad_end MoreSamples.toneless_fragment.
Proof.
  destruct (pads_frame Sample.request (Sample.make 0 10 None None)
              Sample.fragment MoreSamples.toneless_fragment
              sample_fragment toneless_fragment_built eq_refl eq_refl)
    as [Hs He].
  split; [apply Hs|apply He]; reflexivity.
Defined.

Lemma requested_logLevel_is_ignored_witness :
  MoreSamples.run (Some "error") None = Return "verbose"
  /\ MoreSamples.run (Some "error") None = MoreSamples.run (Some "warn") None.
Proof.
  destruct (requested_logLevel_is_ignored (Server := unit) tt tt tt 30000
              (fun _ => "{}") MoreSamples.echo_level
              (MoreSamples.options None None) "error" "warn")
    as (Hlevel & Hsame & _); [discriminate|discriminate|].
  split; [|exact Hsame].
  rewrite <- Hlevel. reflexivity.
Defined.

Lemma empty_window_fragment_built :
  stringifyFfmpegFilter (Sample.make 4 4 (Some 9%float) None)
  = Return (Some MoreSamples.empty_window_fragment).
Proof. vm_compute. reflexivity. Qed.

Lemma empty_window_is_silent_witness :
  option_map TrimAndTempo.audibleDuration
    (returned (trimAndSetTempo 2 4 4 false (Some 9%float))) = Some 0%float
  /\ pad_end MoreSamples.empty_window_fragment
     = (let rest := (8 - 30 / 30)%float in
        if gtb rest 0.0000001
        then Some ("apad=pad_len="
                     ++ Number_toString (Math_round (rest * 48000)%float))
        else None).
Proof.
  apply (empty_window_is_silent (Sample.make 4 4 (Some 9%float) None)
           MoreSamples.empty_window_fragment empty_window_fragment_built);
    reflexivity.
Defined.

Lemma small_tone_fragment_built :
  stringifyFfmpegFilter (Sample.make 0 10 None (Some 0.0000001%float))
  = Return (Some MoreSamples.small_tone_fragment).
Proof. vm_compute. reflexivity. Qed.

Lemma small_tone_prints_exponent_witness :
  includes (tone_clause DEFAULT_SAMPLE_RATE 0.0000001)
    (filter MoreSamples.small_tone_fragment) = true
  /\ includes "e-" (Number_toString 0.0000001) = true
  /\ includes "e-" (filter MoreSamples.small_tone_fragment) = true.
Proof.
  apply (small_tone_prints_exponent
           (Sample.make 0 10 None (Some 0.0000001%float))
           MoreSamples.small_tone_fragment 0.0000001
           small_tone_fragment_built);
    reflexivity.
Defined.

(** A rate of zero: the tempo generator overflows the stack, and the
    builder passes that on. *)
Lemma zero_rate_throws :
  Throwing.stringifyFfmpegFilter ThrowingSample.zero_rate_request
  = Throw (RangeError "Maximum call stack size exceeded").
Proof. vm_compute. reflexivity. Qed.

(** At the sample request both collaborators return, and the builder does
    what it does over collaborators that are functions. *)
Lemma returning_collaborators_sample :
  Throwing.stringifyFfmpegFilter Sample.request
  = Return (Some Sample.fragment).
Proof.
  rewrite (returning_collaborators Sample.request);
    [exact sample_fragment|reflexivity..].
Qed.
